(** * dp_ws: registry, configuration resolution and the training driver

    A shallow embedding of
      - [methods/envs/locomotion/__init__.py]  (module [Locomotion]),
      - [methods/envs/registry.py]             (module [Registry]),
      - [scripts/train_jax_ppo.py]             (module [TrainJaxPpo]),
    preceded by the fragment of the Python run time those files lean on
    (module [Py]): [int()] on strings, [repr()] of strings, [str.lower],
    insertion-ordered dictionaries, stable sorting and exceptions.

    Strings are Rocq strings read as sequences of code points below 256. *)

From Stdlib Require Import List String Ascii ZArith Bool Lia PeanoNat.
From Stdlib Require Import Permutation PrimFloat.
Import ListNotations.

Set Warnings "-register-all,-inexact-float".

Local Open Scope string_scope.
Local Open Scope list_scope.

(* ===================================================================== *)
(** * The Python run time *)
(* ===================================================================== *)

Module Py.

(** ** Exceptions

    The built-in exception classes the three files can raise.  All but
    [AttributeError] carry the message text; an [AttributeError] carries the
    name of the attribute that could not be read or written (its wording
    differs between built-in objects and ConfigDict). *)
Inductive PyExc : Type :=
| ValueError (msg : string)
| IndexError (msg : string)
| TypeError (msg : string)
| KeyError (msg : string)
| AttributeError (attr : string).

(** A computation that raises or returns. *)
Definition Exc (A : Type) : Type := (PyExc + A)%type.

Definition Raise {A : Type} (e : PyExc) : Exc A := inl e.
Definition Return {A : Type} (a : A) : Exc A := inr a.

Definition ebind {A B : Type} (m : Exc A) (f : A -> Exc B) : Exc B :=
  match m with
  | inl e => inl e
  | inr a => f a
  end.


Definition is_ValueError (e : PyExc) : bool :=
  match e with ValueError _ => true | _ => false end.

(** ** Characters *)

Definition code (c : ascii) : N := N_of_ascii c.

Definition between (lo hi : N) (c : ascii) : bool :=
  (lo <=? code c)%N && (code c <=? hi)%N.

(** The characters [int()] skips at either end of its argument: the ASCII
    white space 0x09-0x0D and 0x20 and, above 0x7F, NEL and NBSP. *)
Definition is_space (c : ascii) : bool :=
  between 9 13 c || (code c =? 32)%N || (code c =? 133)%N || (code c =? 160)%N.

Definition is_digit (c : ascii) : bool := between 48 57 c.

Definition digit_val (c : ascii) : Z := Z.of_N (code c) - 48.

(** [str.lower] on one code point: A-Z and the Latin-1 capitals
    0xC0-0xDE without the multiplication sign 0xD7. *)
Definition lower_char (c : ascii) : ascii :=
  if between 65 90 c || (between 192 222 c && negb (code c =? 215)%N)
  then ascii_of_N (code c + 32)
  else c.

Fixpoint lower (s : string) : string :=
  match s with
  | EmptyString => EmptyString
  | String c r => String (lower_char c) (lower r)
  end.

(** ** [int(s)] in base 10 *)

Fixpoint lstrip (l : list ascii) : list ascii :=
  match l with
  | c :: r => if is_space c then lstrip r else l
  | [] => []
  end.

Definition strip (l : list ascii) : list ascii :=
  rev (lstrip (rev (lstrip l))).

(** Digits with single underscores between them; [after_digit] tells whether
    the previous character was a digit, so that a leading, trailing or
    doubled underscore is refused, as is the empty string. *)
Fixpoint digits (acc : Z) (after_digit : bool) (l : list ascii) : option Z :=
  match l with
  | [] => if after_digit then Some acc else None
  | c :: r =>
      if is_digit c then digits (10 * acc + digit_val c) true r
      else if (code c =? 95)%N
           then (if after_digit then digits acc false r else None)
           else None
  end.

Definition parse_int (s : string) : option Z :=
  match strip (list_ascii_of_string s) with
  | c :: r =>
      if (code c =? 43)%N then digits 0 false r
      else if (code c =? 45)%N then option_map Z.opp (digits 0 false r)
      else digits 0 false (c :: r)
  | [] => None
  end.

(** ** [repr(s)] of a string *)

Definition hex_digit (n : N) : ascii :=
  if (n <? 10)%N then ascii_of_N (48 + n) else ascii_of_N (87 + n).

Definition quote1 : ascii := ascii_of_N 39.
Definition quote2 : ascii := ascii_of_N 34.
Definition backslash : ascii := ascii_of_N 92.

Definition has_char (q : ascii) (s : string) : bool :=
  existsb (Ascii.eqb q) (list_ascii_of_string s).

(** [str.isprintable] on one code point below 256. *)
Definition is_printable (c : ascii) : bool :=
  between 32 126 c || (between 161 255 c && negb (code c =? 173)%N).

Definition repr_char (q c : ascii) : list ascii :=
  if Ascii.eqb c q || Ascii.eqb c backslash then [backslash; c]
  else if (code c =? 9)%N then [backslash; "t"%char]
  else if (code c =? 10)%N then [backslash; "n"%char]
  else if (code c =? 13)%N then [backslash; "r"%char]
  else if is_printable c then [c]
  else [backslash; "x"%char; hex_digit (code c / 16); hex_digit (code c mod 16)].

Definition repr (s : string) : string :=
  let q := if has_char quote1 s && negb (has_char quote2 s)
           then quote2 else quote1 in
  string_of_list_ascii
    (q :: flat_map (repr_char q) (list_ascii_of_string s) ++ [q]).

(** [', '.join(l)]. *)
Fixpoint join (sep : string) (l : list string) : string :=
  match l with
  | [] => ""
  | [x] => x
  | x :: r => x ++ sep ++ join sep r
  end.

(** [repr] of a list and of a tuple of strings. *)
Definition repr_list (l : list string) : string :=
  "[" ++ join ", " (map repr l) ++ "]".

Definition repr_tuple (l : list string) : string :=
  match l with
  | [x] => "(" ++ repr x ++ ",)"
  | _ => "(" ++ join ", " (map repr l) ++ ")"
  end.

(** The first [n] characters of [s] (the [%.200R] of CPython's messages). *)
Fixpoint take (n : nat) (s : string) : string :=
  match n, s with
  | S m, String c r => String c (take m r)
  | _, _ => EmptyString
  end.

Definition invalid_literal (s : string) : string :=
  "invalid literal for int() with base 10: " ++ take 200 (repr s).

(** [int(s)]: the value, or the [ValueError] naming [s]. *)
Definition int (s : string) : Exc Z :=
  match parse_int s with
  | Some z => Return z
  | None => Raise (ValueError (invalid_literal s))
  end.

(** ** Dictionaries

    A [dict] keeps its keys in insertion order: assigning to a key that is
    present replaces its value in place, assigning to a new key appends. *)
Definition dict (V : Type) : Type := list (string * V).

Section Dict.
Context {V : Type}.

Fixpoint get (k : string) (d : dict V) : option V :=
  match d with
  | [] => None
  | (k', v) :: r => if String.eqb k k' then Some v else get k r
  end.

Fixpoint set (k : string) (v : V) (d : dict V) : dict V :=
  match d with
  | [] => [(k, v)]
  | (k', v') :: r =>
      if String.eqb k k' then (k, v) :: r else (k', v') :: set k v r
  end.

Definition keys (d : dict V) : list string := map fst d.

(** [k in d]. *)
Definition mem (k : string) (d : dict V) : bool :=
  match get k d with Some _ => true | None => false end.

(** [del d[k]] for a key that is present. *)
Definition del (k : string) (d : dict V) : dict V :=
  filter (fun kv => negb (String.eqb k (fst kv))) d.

(** [d.get(k, default)]. *)
Definition get_default (k : string) (default : V) (d : dict V) : V :=
  match get k d with Some v => v | None => default end.
End Dict.

(** [x in t] for a tuple or list of strings. *)
Definition elem (x : string) (t : list string) : bool :=
  existsb (String.eqb x) t.

(** ** [list.sort(key=...)] and [l[-1]]

    The sort is stable: elements with equal keys keep their order.  The keys
    are computed beforehand, so the list sorted here pairs each element with
    its key. *)
Section Sort.
Context {A : Type}.

Fixpoint insert (x : Z * A) (l : list (Z * A)) : list (Z * A) :=
  match l with
  | [] => [x]
  | y :: r => if (fst x <=? fst y)%Z then x :: l else y :: insert x r
  end.

Definition sort (l : list (Z * A)) : list (Z * A) :=
  fold_right insert [] l.

(** [l[-1]]. *)
Fixpoint last_item (l : list A) : Exc A :=
  match l with
  | [] => Raise (IndexError "list index out of range")
  | [x] => Return x
  | _ :: r => last_item r
  end.
End Sort.

(** The keys of a [sort(key=f)], computed front to back; the first element on
    which [f] raises ends the sort with that exception. *)
Fixpoint keyed {A : Type} (f : A -> Exc Z) (l : list A) : Exc (list (Z * A)) :=
  match l with
  | [] => Return []
  | x :: r =>
      ebind (f x) (fun k => ebind (keyed f r) (fun kr => Return ((k, x) :: kr)))
  end.

Definition sort_by {A : Type} (f : A -> Exc Z) (l : list A) : Exc (list A) :=
  ebind (keyed f l) (fun kl => Return (map snd (sort kl))).

(** Whether [needle] occurs in [s]. *)
Fixpoint contains (needle s : string) : bool :=
  if String.prefix needle s then true
  else match s with
       | EmptyString => false
       | String _ r => contains needle r
       end.

End Py.

(* ===================================================================== *)
(** * Configuration trees (ml_collections.ConfigDict) *)
(* ===================================================================== *)

Module Config.
Import Py.

(** What a configuration tree stores: scalars, sequences and nested trees. *)
Inductive value : Type :=
| VNone
| VBool (b : bool)
| VInt (z : Z)
| VFloat (x : float)
| VStr (s : string)
| VList (l : list value)
| VTuple (l : list value)
| VConfig (fields : list (string * value)).

Definition ConfigDict : Type := dict value.

(** [c.k] and [c[k]]: the stored value; a missing key is an
    [AttributeError] on attribute access. *)
Definition getattr (c : ConfigDict) (k : string) : Exc value :=
  match get k c with
  | Some v => Return v
  | None => Raise (AttributeError k)
  end.

Definition hasattr (c : ConfigDict) (k : string) : bool := mem k c.

(** [bool(c)]: a ConfigDict has a length, so the empty one is falsy. *)
Definition truthy (c : ConfigDict) : bool :=
  match c with
  | [] => false
  | _ :: _ => true
  end.

Section Write.

(** The library's checks on [c[k] = v] (lock state, type safety against the
    value already stored, conversion of the new value) are not part of this
    repository: [check_write c k v] stands for them and yields the value to
    store or the exception of [__setitem__]. *)
Variable check_write : ConfigDict -> string -> value -> Exc value.

(** [c[k] = v]. *)
Definition setitem (c : ConfigDict) (k : string) (v : value) : Exc ConfigDict :=
  ebind (check_write c k v) (fun v' => Return (set k v' c)).

(** [c.k = v]: [__setattr__] turns a [KeyError] of [__setitem__] into an
    [AttributeError]. *)
Definition setattr (c : ConfigDict) (k : string) (v : value) : Exc ConfigDict :=
  match setitem c k v with
  | inl (KeyError _) => Raise (AttributeError k)
  | r => r
  end.

End Write.

(** [not config] for an optional tree. *)
Definition falsy (config : option ConfigDict) : bool :=
  match config with
  | Some c => negb (truthy c)
  | None => true
  end.

(** A tree that accepts every write as it is (unlocked, no type check). *)
Definition unchecked (c : ConfigDict) (k : string) (v : value) : Exc value :=
  Return v.

End Config.

(* ===================================================================== *)
(** * The world outside: paths, environments, effects *)
(* ===================================================================== *)

Module World.
Import Py Config.

(** A path is the list of its components below the root; [p / n] appends. *)
Definition path : Type := list string.

Definition child (p : path) (n : string) : path := p ++ [n].

(** [p.name]: the final component. *)
Definition name (p : path) : string := last p EmptyString.

(** What a run reads from its host: the clock, and the file system as
    [epath.Path] shows it.  [glob_star p] lists the names [p.glob("*")]
    yields, in the order it yields them. *)
Record Host : Type := {
  timestamp : string;
  resolve : string -> path;
  is_dir : path -> bool;
  glob_star : path -> list string
}.

(** The registered environment classes: the two partial applications of
    [g1_joystick.Joystick] and whatever [register_environment] adds. *)
Inductive EnvClass : Type :=
| Joystick (task : string)
| UserEnv (tag : string).

(** An environment instance is identified by its class and the arguments
    it was constructed with. *)
Record MjxEnv : Type := {
  env_class : EnvClass;
  env_config : ConfigDict;
  env_config_overrides : option (dict value)
}.

(** Arguments handed to collaborators: values, environments, paths,
    [functools.partial] objects, functions by name, and the object the latest
    call of a collaborator returned. *)
Inductive Arg : Type :=
| AVal (v : value)
| AEnv (e : MjxEnv)
| APath (p : path)
| APartial (callee : string) (bound : dict value)
| AFunc (fname : string)
| AResult (callee : string).

(** A piece of a printed line: literal text, or [str()] of an object whose
    rendering belongs to a library. *)
Inductive Frag : Type :=
| Text (s : string)
| Shown (a : Arg).

(** The observable effects, in the order they happen. *)
Inductive Event : Type :=
| Print (line : list Frag)
| Mkdir (p : path)
| WriteJson (p : path) (content : value)
| Construct (e : MjxEnv)
| Call (callee : string) (kwargs : dict Arg).

(** An effectful computation: the events it caused, and how it ended. *)
Definition M (A : Type) : Type := (list Event * Exc A)%type.

Definition ret {A : Type} (a : A) : M A := ([], Return a).

Definition raise {A : Type} (e : PyExc) : M A := ([], Raise e).

Definition emit (ev : Event) : M unit := ([ev], Return tt).

Definition lift {A : Type} (m : Exc A) : M A := ([], m).

Definition bind {A B : Type} (m : M A) (f : A -> M B) : M B :=
  match m with
  | (t, inl e) => (t, inl e)
  | (t, inr a) => let (t', r) := f a in (t ++ t', r)
  end.

Definition print (s : string) : M unit := emit (Print [Text s]).

Definition events {A : Type} (m : M A) : list Event := fst m.

Definition outcome {A : Type} (m : M A) : Exc A := snd m.

End World.

Declare Scope py_scope.
Delimit Scope py_scope with py.
Notation "x <- m ;; k" := (World.bind m (fun x => k))
  (at level 61, m at next level, right associativity) : py_scope.
Notation "m ;; k" := (World.bind m (fun _ => k))
  (at level 61, right associativity) : py_scope.
Notation "x <~ m ;; k" := (Py.ebind m (fun x => k))
  (at level 61, m at next level, right associativity) : py_scope.

(* ===================================================================== *)
(** * methods/envs/locomotion/__init__.py *)
(* ===================================================================== *)

Module Locomotion.
Import Py Config World.
Local Open Scope py_scope.

(** The module-level dictionaries [_envs], [_cfgs] and [_randomizer].  A
    configuration factory is represented by the tree a call to it builds,
    a randomizer by the qualified name of the function stored. *)
Record Tables : Type := {
  _envs : dict EnvClass;
  _cfgs : dict ConfigDict;
  _randomizer : dict string
}.

Section Initial.

(** The tree built by [g1_joystick.default_config], which is not among the
    sources. *)
Variable g1_default_config : ConfigDict.

Definition initial : Tables := {|
  _envs := [ ("G1JoystickFlatTerrain", Joystick "flat_terrain");
             ("G1JoystickRoughTerrain", Joystick "rough_terrain") ];
  _cfgs := [ ("G1JoystickFlatTerrain", g1_default_config);
             ("G1JoystickRoughTerrain", g1_default_config) ];
  _randomizer := [ ("G1JoystickFlatTerrain", "g1_randomize.domain_randomize");
                   ("G1JoystickRoughTerrain", "g1_randomize.domain_randomize") ]
|}.

End Initial.

(** The module attribute [ALL_ENVS], recomputed at every access. *)
Definition ALL_ENVS (T : Tables) : list string := keys (_envs T).

Definition register_environment
  (env_name : string) (env_class : EnvClass) (cfg_class : ConfigDict)
  (T : Tables) : Tables := {|
  _envs := set env_name env_class (_envs T);
  _cfgs := set env_name cfg_class (_cfgs T);
  _randomizer := _randomizer T
|}.

Definition get_default_config (T : Tables) (env_name : string) : Exc ConfigDict :=
  match get env_name (_cfgs T) with
  | None =>
      Raise (ValueError ("Env '" ++ env_name
                         ++ "' not found in default configs. Available configs: "
                         ++ repr_list (keys (_cfgs T))))
  | Some cfg_class => Return cfg_class
  end.

(** The call [_envs[env_name](config=..., config_overrides=...)]. *)
Definition construct
  (cls : EnvClass) (config : ConfigDict) (config_overrides : option (dict value))
  : M MjxEnv :=
  let env := {| env_class := cls;
                env_config := config;
                env_config_overrides := config_overrides |} in
  emit (Construct env) ;; ret env.

Definition load
  (T : Tables) (env_name : string) (config : option ConfigDict)
  (config_overrides : option (dict value)) : M MjxEnv :=
  emit (Call "mjx_env.ensure_menagerie_exists" []) ;;
  match get env_name (_envs T) with
  | None =>
      raise (ValueError ("Env '" ++ env_name ++ "' not found. Available envs: "
                         ++ "dict_keys(" ++ repr_list (keys (_cfgs T)) ++ ")"))
  | Some cls =>
      (* config = config or get_default_config(env_name) *)
      config <- lift (match config with
                      | Some c => if truthy c then Return c
                                  else get_default_config T env_name
                      | None => get_default_config T env_name
                      end) ;;
      construct cls config config_overrides
  end.

Definition no_randomizer_notice (env_name : string) : string :=
  "Env '" ++ env_name
  ++ "' does not have a domain randomizer in the locomotion registry.".

Definition get_domain_randomizer (T : Tables) (env_name : string)
  : M (option string) :=
  match get env_name (_randomizer T) with
  | None => print (no_randomizer_notice env_name) ;; ret None
  | Some randomizer => ret (Some randomizer)
  end.

End Locomotion.

(* ===================================================================== *)
(** * methods/envs/registry.py *)
(* ===================================================================== *)

Module Registry.
Import Py Config World.
Local Open Scope py_scope.

(** The suite's tables together with the tuple [ALL_ENVS], which this module
    computes once, when it is imported. *)
Record State : Type := {
  locomotion : Locomotion.Tables;
  ALL_ENVS : list string
}.

(** The state right after import. *)
Definition imported (T : Locomotion.Tables) : State := {|
  locomotion := T;
  ALL_ENVS := Locomotion.ALL_ENVS T
|}.

(** [("PPO" + "FQL")]: one string, not a tuple. *)
Definition ALL_AGENTS : string := "PPO" ++ "FQL".

Definition get_default_config (R : State) (env_name : string) : Exc ConfigDict :=
  if elem env_name (Locomotion.ALL_ENVS (locomotion R))
  then Locomotion.get_default_config (locomotion R) env_name
  else Raise (ValueError ("Env '" ++ env_name ++ "' not found in default configs.")).

Definition load
  (R : State) (env_name : string) (config : option ConfigDict)
  (config_overrides : option (dict value)) : M MjxEnv :=
  if elem env_name (Locomotion.ALL_ENVS (locomotion R))
  then Locomotion.load (locomotion R) env_name config config_overrides
  else raise (ValueError ("Env '" ++ env_name ++ "' not found. Available envs: "
                          ++ repr_tuple (ALL_ENVS R))).

Definition get_domain_randomizer (R : State) (env_name : string)
  : M (option string) :=
  if elem env_name (Locomotion.ALL_ENVS (locomotion R))
  then Locomotion.get_domain_randomizer (locomotion R) env_name
  else ret None.

End Registry.

(* ===================================================================== *)
(** * Command-line flags (absl) *)
(* ===================================================================== *)

Module Absl.

(** A flag holder: its value, and whether the command line supplied it. *)
Record Flag (A : Type) : Type := {
  value : A;
  present : bool
}.

Arguments value {A} _.
Arguments present {A} _.

(** A flag left at its default. *)
Definition DEFINE {A : Type} (default : A) : Flag A :=
  {| value := default; present := false |}.

(** The same flag, supplied on the command line with value [a]. *)
Definition given {A : Type} (a : A) : Flag A :=
  {| value := a; present := true |}.

End Absl.

(* ===================================================================== *)
(** * scripts/train_jax_ppo.py *)
(* ===================================================================== *)

Module TrainJaxPpo.
Import Py Config World.
Local Open Scope py_scope.

Abbreviation Flag := Absl.Flag.
Abbreviation DEFINE := Absl.DEFINE.
Abbreviation present := Absl.present.

(** The flags that select and steer the run. *)
Record RunFlags : Type := {
  _ENV_NAME : Flag string;
  _AGENT : Flag string;
  _IMPL : Flag string;
  _SUFFIX : Flag (option string);
  _PLAY_ONLY : Flag bool;
  _USE_WANDB : Flag bool;
  _USE_TB : Flag bool;
  _LOAD_CHECKPOINT_PATH : Flag (option string);
  _DOMAIN_RANDOMIZATION : Flag bool;
  _SEED : Flag Z;
  _RSCOPE_ENVS : Flag (option Z);
  _DETERMINISTIC_RSCOPE : Flag bool;
  _NUM_VIDEOS : Flag Z
}.

(** The flags that override training parameters.  The two list flags hold
    the comma-separated strings of the command line whenever they are
    present, which is the only time they are read. *)
Record ParamFlags : Type := {
  _NUM_TIMESTEPS : Flag Z;
  _NUM_EVALS : Flag Z;
  _REWARD_SCALING : Flag float;
  _EPISODE_LENGTH : Flag Z;
  _NORMALIZE_OBSERVATIONS : Flag bool;
  _ACTION_REPEAT : Flag Z;
  _UNROLL_LENGTH : Flag Z;
  _NUM_MINIBATCHES : Flag Z;
  _NUM_UPDATES_PER_BATCH : Flag Z;
  _DISCOUNTING : Flag float;
  _LEARNING_RATE : Flag float;
  _ENTROPY_COST : Flag float;
  _NUM_ENVS : Flag Z;
  _NUM_EVAL_ENVS : Flag Z;
  _BATCH_SIZE : Flag Z;
  _MAX_GRAD_NORM : Flag float;
  _CLIPPING_EPSILON : Flag float;
  _POLICY_HIDDEN_LAYER_SIZES : Flag (list string);
  _VALUE_HIDDEN_LAYER_SIZES : Flag (list string);
  _POLICY_OBS_KEY : Flag string;
  _VALUE_OBS_KEY : Flag string;
  _RUN_EVALS : Flag bool;
  _LOG_TRAINING_METRICS : Flag bool;
  _TRAINING_METRICS_STEPS : Flag Z
}.

Record Flags : Type := {
  run : RunFlags;
  params : ParamFlags
}.

(** The flags as the script defines them. *)
Definition run_defaults : RunFlags := {|
  _ENV_NAME := DEFINE "G1JoystickFlatTerrain";
  _AGENT := DEFINE "ppo";
  _IMPL := DEFINE "jax";
  _SUFFIX := DEFINE None;
  _PLAY_ONLY := DEFINE false;
  _USE_WANDB := DEFINE false;
  _USE_TB := DEFINE false;
  _LOAD_CHECKPOINT_PATH := DEFINE None;
  _DOMAIN_RANDOMIZATION := DEFINE false;
  _SEED := DEFINE 1%Z;
  _RSCOPE_ENVS := DEFINE None;
  _DETERMINISTIC_RSCOPE := DEFINE true;
  _NUM_VIDEOS := DEFINE 1%Z
|}.

Definition param_defaults : ParamFlags := {|
  _NUM_TIMESTEPS := DEFINE 1000000%Z;
  _NUM_EVALS := DEFINE 5%Z;
  _REWARD_SCALING := DEFINE 0.1%float;
  _EPISODE_LENGTH := DEFINE 1000%Z;
  _NORMALIZE_OBSERVATIONS := DEFINE true;
  _ACTION_REPEAT := DEFINE 1%Z;
  _UNROLL_LENGTH := DEFINE 10%Z;
  _NUM_MINIBATCHES := DEFINE 8%Z;
  _NUM_UPDATES_PER_BATCH := DEFINE 8%Z;
  _DISCOUNTING := DEFINE 0.97%float;
  _LEARNING_RATE := DEFINE 5e-4%float;
  _ENTROPY_COST := DEFINE 5e-3%float;
  _NUM_ENVS := DEFINE 1024%Z;
  _NUM_EVAL_ENVS := DEFINE 128%Z;
  _BATCH_SIZE := DEFINE 256%Z;
  _MAX_GRAD_NORM := DEFINE 1.0%float;
  _CLIPPING_EPSILON := DEFINE 0.2%float;
  _POLICY_HIDDEN_LAYER_SIZES := DEFINE ["64"; "64"; "64"];
  _VALUE_HIDDEN_LAYER_SIZES := DEFINE ["64"; "64"; "64"];
  _POLICY_OBS_KEY := DEFINE "state";
  _VALUE_OBS_KEY := DEFINE "state";
  _RUN_EVALS := DEFINE true;
  _LOG_TRAINING_METRICS := DEFINE false;
  _TRAINING_METRICS_STEPS := DEFINE 1000000%Z
|}.

Definition FLAGS : Flags := {| run := run_defaults; params := param_defaults |}.

(** ** The object bound to [rl_params]

    [get_rl_config] hands back a configuration tree, or, for an agent it
    does not know, the [ValueError] instance its last [return] builds; the
    instance carries the attributes later assignments give it. *)
Inductive RlParams : Type :=
| Tree (c : ConfigDict)
| Instance (e : PyExc) (attrs : dict value).

Definition class_name (e : PyExc) : string :=
  match e with
  | ValueError _ => "ValueError"
  | IndexError _ => "IndexError"
  | TypeError _ => "TypeError"
  | KeyError _ => "KeyError"
  | AttributeError _ => "AttributeError"
  end.

Definition type_name (v : value) : string :=
  match v with
  | VNone => "NoneType"
  | VBool _ => "bool"
  | VInt _ => "int"
  | VFloat _ => "float"
  | VStr _ => "str"
  | VList _ => "list"
  | VTuple _ => "tuple"
  | VConfig _ => "ConfigDict"
  end.

(** [list(map(int, l))]. *)
Fixpoint int_list (l : list string) : Exc (list value) :=
  match l with
  | [] => Return []
  | s :: r => z <~ int s ;; zs <~ int_list r ;; Return (VInt z :: zs)
  end.

Section Driver.

(** Code of the repository that is not among the sources, and the library
    check behind every ConfigDict write. *)
Variable check_write : ConfigDict -> string -> value -> Exc value.
Variable brax_ppo_config : string -> string -> Exc ConfigDict.
Variable brax_fql_config : string -> string -> Exc ConfigDict.

Definition get_rl_config
  (R : Registry.State) (impl : string) (env_name agent_name : string)
  : Exc RlParams :=
  if mem env_name (Locomotion._envs (Registry.locomotion R)) then
    if String.eqb (lower agent_name) "ppo" then
      c <~ brax_ppo_config env_name impl ;; Return (Tree c)
    else if String.eqb (lower agent_name) "fql" then
      c <~ brax_fql_config env_name impl ;; Return (Tree c)
    else
      (* return ValueError("Invalid agent name.") *)
      Return (Instance (ValueError "Invalid agent name.") [])
  else
    Raise (ValueError ("Env " ++ env_name ++ " not found in "
                       ++ repr_tuple (Registry.ALL_ENVS R) ++ ".")).

(** [rl_params.k]. *)
Definition rl_getattr (rl : RlParams) (k : string) : Exc value :=
  match rl with
  | Tree c => getattr c k
  | Instance _ attrs =>
      match get k attrs with
      | Some v => Return v
      | None => Raise (AttributeError k)
      end
  end.

(** [rl_params.k = v]. *)
Definition rl_setattr (rl : RlParams) (k : string) (v : value) : Exc RlParams :=
  match rl with
  | Tree c => c' <~ setattr check_write c k v ;; Return (Tree c')
  | Instance e attrs => Return (Instance e (set k v attrs))
  end.

(** The object at [rl_params.network_factory] is changed in place, so the
    parent shows the new sub-tree under the same key. *)
Definition rl_replace (rl : RlParams) (k : string) (v : value) : RlParams :=
  match rl with
  | Tree c => Tree (set k v c)
  | Instance e attrs => Instance e (set k v attrs)
  end.

(** [rl_params.network_factory.k = v]: the right-hand side is already
    evaluated; the attribute read comes next, then the write. *)
Definition rl_setnested (rl : RlParams) (k : string) (v : value) : Exc RlParams :=
  nf <~ rl_getattr rl "network_factory" ;;
  match nf with
  | VConfig fields =>
      fields' <~ setattr check_write fields k v ;;
      Return (rl_replace rl "network_factory" (VConfig fields'))
  | _ => Raise (AttributeError k)
  end.

(** ** The overrides, lines 209-262

    One entry per [if _X.present:] statement, in the order of the source:
    the name of the flag tested, whether it was supplied, the place assigned
    to, and the right-hand side. *)
Inductive Target : Type :=
| Top (k : string)
| Nested (k : string).

Record Override : Type := {
  flag : string;
  supplied : bool;
  target : Target;
  rhs : Exc value
}.

(** [if _K.present: rl_params.k = _K.value] *)
Definition top {A : Type} (f : Flag A) (k : string) (inj : A -> value) : Override :=
  {| flag := k; supplied := present f; target := Top k;
     rhs := Return (inj (Absl.value f)) |}.

(** [if _K.present: rl_params.network_factory.k = conv(_K.value)] *)
Definition nested {A : Type} (f : Flag A) (k : string) (conv : A -> Exc value)
  : Override :=
  {| flag := k; supplied := present f; target := Nested k;
     rhs := conv (Absl.value f) |}.

Definition hidden_layer_sizes (l : list string) : Exc value :=
  zs <~ int_list l ;; Return (VList zs).

Definition obs_key (s : string) : Exc value := Return (VStr s).

Definition overrides (F : Flags) : list Override :=
  let P := params F in
  [ top (_NUM_TIMESTEPS P) "num_timesteps" VInt;
    {| flag := "play_only";
       supplied := present (_PLAY_ONLY (run F));
       target := Top "num_timesteps";
       rhs := Return (VInt 0) |};
    top (_NUM_EVALS P) "num_evals" VInt;
    top (_REWARD_SCALING P) "reward_scaling" VFloat;
    top (_EPISODE_LENGTH P) "episode_length" VInt;
    top (_NORMALIZE_OBSERVATIONS P) "normalize_observations" VBool;
    top (_ACTION_REPEAT P) "action_repeat" VInt;
    top (_UNROLL_LENGTH P) "unroll_length" VInt;
    top (_NUM_MINIBATCHES P) "num_minibatches" VInt;
    top (_NUM_UPDATES_PER_BATCH P) "num_updates_per_batch" VInt;
    top (_DISCOUNTING P) "discounting" VFloat;
    top (_LEARNING_RATE P) "learning_rate" VFloat;
    top (_ENTROPY_COST P) "entropy_cost" VFloat;
    top (_NUM_ENVS P) "num_envs" VInt;
    top (_NUM_EVAL_ENVS P) "num_eval_envs" VInt;
    top (_BATCH_SIZE P) "batch_size" VInt;
    top (_MAX_GRAD_NORM P) "max_grad_norm" VFloat;
    top (_CLIPPING_EPSILON P) "clipping_epsilon" VFloat;
    nested (_POLICY_HIDDEN_LAYER_SIZES P) "policy_hidden_layer_sizes" hidden_layer_sizes;
    nested (_VALUE_HIDDEN_LAYER_SIZES P) "value_hidden_layer_sizes" hidden_layer_sizes;
    nested (_POLICY_OBS_KEY P) "policy_obs_key" obs_key;
    nested (_VALUE_OBS_KEY P) "value_obs_key" obs_key;
    top (_RUN_EVALS P) "run_evals" VBool;
    top (_LOG_TRAINING_METRICS P) "log_training_metrics" VBool;
    top (_TRAINING_METRICS_STEPS P) "training_metrics_steps" VInt ].

(** One [if _X.present: target = rhs]. *)
Definition apply_override (rl : RlParams) (o : Override) : Exc RlParams :=
  if supplied o then
    v <~ rhs o ;;
    match target o with
    | Top k => rl_setattr rl k v
    | Nested k => rl_setnested rl k v
    end
  else Return rl.

Fixpoint apply_overrides (os : list Override) (rl : RlParams) : Exc RlParams :=
  match os with
  | [] => Return rl
  | o :: r => rl' <~ apply_override rl o ;; apply_overrides r rl'
  end.

(** The resolved training parameters of a run. *)
Definition resolve_config (F : Flags) (rl : RlParams) : Exc RlParams :=
  apply_overrides (overrides F) rl.

(** ** Checkpoint loading, lines 293-308 *)
Definition restore_checkpoint_path (H : Host) (load_checkpoint_path : option string)
  : M (option path) :=
  match load_checkpoint_path with
  | Some p =>
      let ckpt_path := resolve H p in
      if is_dir H ckpt_path then
        let latest_ckpts := map (child ckpt_path) (glob_star H ckpt_path) in
        let latest_ckpts := filter (is_dir H) latest_ckpts in
        latest_ckpts <- lift (sort_by (fun x => int (name x)) latest_ckpts) ;;
        latest_ckpt <- lift (last_item latest_ckpts) ;;
        emit (Print [Text "Restoring from: "; Shown (APath latest_ckpt)]) ;;
        ret (Some latest_ckpt)
      else
        emit (Print [Text "Restoring from checkpoint: "; Shown (APath ckpt_path)]) ;;
        ret (Some ckpt_path)
  | None =>
      print "No checkpoint path provided, not restoring from checkpoint" ;;
      ret None
  end.

(** ** Pieces of [main] *)

Definition nl : string := String (ascii_of_N 10) EmptyString.

(** [str(e)] of an exception built from one argument. *)
Definition message (e : PyExc) : string :=
  match e with
  | ValueError m | IndexError m | TypeError m | KeyError m => m
  | AttributeError a => a
  end.

(** [{rl_params}] inside an f-string. *)
Definition show_rl (rl : RlParams) : Frag :=
  match rl with
  | Tree c => Shown (AVal (VConfig c))
  | Instance e _ => Text (message e)
  end.

(** [dict(rl_params)]. *)
Definition to_dict (rl : RlParams) : Exc (dict Arg) :=
  match rl with
  | Tree c => Return (map (fun kv => (fst kv, AVal (snd kv))) c)
  | Instance e _ =>
      Raise (TypeError ("'" ++ class_name e ++ "' object is not iterable"))
  end.

(** [rl_params.get(k, default)]. *)
Definition rl_get (rl : RlParams) (k : string) (default : value) : Exc value :=
  match rl with
  | Tree c => Return (get_default k default c)
  | Instance _ _ => Raise (AttributeError "get")
  end.

Definition network_fn : string := "ppo_networks.make_ppo_networks".

(** Lines 323-331: [hasattr] is false exactly when the read raises
    [AttributeError]. *)
Definition bind_network_factory (rl : RlParams) : Exc Arg :=
  match rl_getattr rl "network_factory" with
  | inr (VConfig fields) => Return (APartial network_fn fields)
  | inr v =>
      Raise (TypeError ("functools.partial() argument after ** must be a mapping, not "
                        ++ type_name v))
  | inl _ => Return (AFunc network_fn)
  end.

(** Keywords written after [**kw] in a call of [functools.partial]: one that
    [kw] already holds is a [TypeError]. *)
Fixpoint add_keywords (kw : dict Arg) (extra : list (string * Arg)) : Exc (dict Arg) :=
  match extra with
  | [] => Return kw
  | (k, a) :: r =>
      if mem k kw
      then Raise (TypeError ("functools.partial() got multiple values for keyword argument '"
                             ++ k ++ "'"))
      else add_keywords (kw ++ [(k, a)]) r
  end.

(** Keywords given when a partial object is called replace bound ones. *)
Definition call_keywords (bound : dict Arg) (given : list (string * Arg)) : dict Arg :=
  fold_left (fun kw ka => set (fst ka) (snd ka) kw) given bound.

Definition optional_path (p : option path) : Arg :=
  match p with
  | Some q => APath q
  | None => AVal VNone
  end.

Definition optional_func (f : option string) : Arg :=
  match f with
  | Some g => AFunc g
  | None => AVal VNone
  end.

Definition rl_arg (rl : RlParams) : Arg :=
  match rl with
  | Tree c => AVal (VConfig c)
  | Instance e _ => AVal (VStr (message e))
  end.

(** Lines 333-336. *)
Definition bind_randomizer
  (R : Registry.State) (F : Flags) (training_params : dict Arg) : M (dict Arg) :=
  if Absl.value (_DOMAIN_RANDOMIZATION (run F)) then
    randomizer <- Registry.get_domain_randomizer R (Absl.value (_ENV_NAME (run F))) ;;
    ret (set "randomization_fn" (optional_func randomizer) training_params)
  else ret training_params.

(** Lines 386-411: the viewer of policy checkpoints, when asked for. *)
Definition rscope
  (R : Registry.State) (F : Flags) (env_cfg : ConfigDict) (rl_params : RlParams)
  (training_params : dict Arg) : M Arg :=
  let env_name := Absl.value (_ENV_NAME (run F)) in
  match Absl.value (_RSCOPE_ENVS (run F)) with
  | Some n =>
      if (n =? 0)%Z then ret (AFunc "lambda *args: None")
      else
        rscope_env <- Registry.load R env_name (Some env_cfg) None ;;
        episode_length <- lift (rl_getattr rl_params "episode_length") ;;
        action_repeat <- lift (rl_getattr rl_params "action_repeat") ;;
        emit (Call "wrapper.wrap_for_brax_training"
                [ ("0", AEnv rscope_env);
                  ("episode_length", AVal episode_length);
                  ("action_repeat", AVal action_repeat);
                  ("randomization_fn",
                   get_default "randomization_fn" (AVal VNone) training_params) ]) ;;
        emit (Call "rscope_utils.BraxRolloutSaver"
                [ ("0", AResult "wrapper.wrap_for_brax_training");
                  ("1", rl_arg rl_params);
                  ("2", AVal (VBool false));
                  ("3", AVal (VInt n));
                  ("4", AVal (VBool (Absl.value (_DETERMINISTIC_RSCOPE (run F)))));
                  ("5", AVal (VInt (Absl.value (_SEED (run F)))));
                  ("6", AFunc "rscope_fn") ]) ;;
        ret (AFunc "policy_params_fn")
  | None => ret (AFunc "lambda *args: None")
  end.

(** ** [main], lines 198-419: from the first statement to the call of the
    trainer.  The statements after it are the rollout recorder below. *)
Definition main (R : Registry.State) (H : Host) (F : Flags) : M unit :=
  let env_name := Absl.value (_ENV_NAME (run F)) in
  let agent := Absl.value (_AGENT (run F)) in
  let impl := Absl.value (_IMPL (run F)) in
  let play_only := Absl.value (_PLAY_ONLY (run F)) in
  (* Load environment configuration *)
  env_cfg <- lift (Registry.get_default_config R env_name) ;;
  env_cfg <- lift (setitem check_write env_cfg "impl" (VStr impl)) ;;
  rl_params <- lift (get_rl_config R impl env_name agent) ;;
  rl_params <- lift (resolve_config F rl_params) ;;
  env <- Registry.load R env_name (Some env_cfg) None ;;
  emit (Print [ Text ("Environment Config (" ++ env_name ++ "):" ++ nl);
                Shown (AVal (VConfig env_cfg)) ]) ;;
  emit (Print [ Text (agent ++ " Training Parameters:" ++ nl); show_rl rl_params ]) ;;
  (* Generate unique experiment name *)
  let exp_name := (env_name ++ "-" ++ timestamp H)%string in
  let exp_name := match Absl.value (_SUFFIX (run F)) with
                  | Some suffix => (exp_name ++ "-" ++ suffix)%string
                  | None => exp_name
                  end in
  print ("Experiment name: " ++ exp_name) ;;
  (* Set up logging directory *)
  let logdir := child (resolve H "logs") exp_name in
  emit (Mkdir logdir) ;;
  emit (Print [Text "Logs are being stored in: "; Shown (APath logdir)]) ;;
  (* Initialize Weights & Biases if required *)
  (if Absl.value (_USE_WANDB (run F)) && negb play_only then
     emit (Call "wandb.init" [ ("project", AVal (VStr "mjxrl"));
                               ("name", AVal (VStr exp_name)) ]) ;;
     emit (Call "wandb.config.update" [("0", AVal (VConfig env_cfg))]) ;;
     emit (Call "wandb.config.update"
             [("0", AVal (VConfig [("env_name", VStr env_name)]))])
   else ret tt) ;;
  (* Initialize TensorBoard if required *)
  (if Absl.value (_USE_TB (run F)) && negb play_only then
     emit (Call "tensorboardX.SummaryWriter" [("0", APath logdir)])
   else ret tt) ;;
  (* Handle checkpoint loading *)
  restore <- restore_checkpoint_path H (Absl.value (_LOAD_CHECKPOINT_PATH (run F))) ;;
  (* Set up checkpoint directory *)
  let ckpt_path := child logdir "checkpoints" in
  emit (Mkdir ckpt_path) ;;
  emit (Print [Text "Checkpoint path: "; Shown (APath ckpt_path)]) ;;
  (* Save environment configuration *)
  emit (WriteJson (child ckpt_path "config.json") (VConfig env_cfg)) ;;
  training_params <- lift (to_dict rl_params) ;;
  let training_params := del "network_factory" training_params in
  network_factory <- lift (bind_network_factory rl_params) ;;
  training_params <- bind_randomizer R F training_params ;;
  num_eval_envs <- lift (rl_get rl_params "num_eval_envs" (VInt 128)) ;;
  let training_params := del "num_eval_envs" training_params in
  train_fn <- lift (add_keywords training_params
                      [ ("network_factory", network_factory);
                        ("seed", AVal (VInt (Absl.value (_SEED (run F)))));
                        ("restore_checkpoint_path", optional_path restore);
                        ("save_checkpoint_path", APath ckpt_path);
                        ("wrap_env_fn", AFunc "wrapper.wrap_for_brax_training");
                        ("num_eval_envs", AVal num_eval_envs) ]) ;;
  (* Load evaluation environment. *)
  eval_env <- Registry.load R env_name (Some env_cfg) None ;;
  policy_params_fn <- rscope R F env_cfg rl_params training_params ;;
  (* Train or load the model *)
  emit (Call "ppo.train"
          (call_keywords train_fn
             [ ("environment", AEnv env);
               ("progress_fn", AFunc "progress");
               ("policy_params_fn", policy_params_fn);
               ("eval_env", AEnv eval_env) ])).

End Driver.

(** ** The rollout recorder, lines 432-470

    [jax.lax.scan] over [length] steps is the list of the outputs of the
    steps, [jax.vmap] over a batch the list of the results for its members;
    a stacked tree is represented by the list of the trees stacked.  Arrays,
    observations, actions and random keys are opaque. *)
Section Rollout.

Variable array : Type.
Variable key : Type.
Variable action : Type.

(** [mjx.Data]: the seven fields the recorder reads, and the remaining
    annotated fields by name. *)
Record Data : Type := {
  qpos : option array;
  qvel : option array;
  time : option array;
  ctrl : option array;
  mocap_pos : option array;
  mocap_quat : option array;
  xfrc_applied : option array;
  data_rest : dict (option array)
}.

(** [mjx_env.State]: [data], and the other annotated fields by name
    ([obs] among them). *)
Record State : Type := {
  data : Data;
  state_rest : dict (option array)
}.

Variable PRNGKey : Z -> key.

(** [jax.random.split(k, num)] is [num] keys, the [i]-th determined by
    [k], [num] and [i]. *)
Variable subkey : key -> nat -> nat -> key.

Variable reset : key -> State.
Variable env_step : State -> action -> State.
Variable jit_inference_fn : option array -> key -> action.

Definition random_split (k : key) (num : nat) : list key :=
  map (subkey k num) (seq 0 num).

(** Every annotated field set to [None]. *)
Definition cleared (d : dict (option array)) : dict (option array) :=
  map (fun kv => (fst kv, None)) d.

Definition empty_data (state : State) : Data := {|
  qpos := None; qvel := None; time := None; ctrl := None;
  mocap_pos := None; mocap_quat := None; xfrc_applied := None;
  data_rest := cleared (data_rest (data state))
|}.

Definition empty_traj (state : State) : State := {|
  data := empty_data state;
  state_rest := cleared (state_rest state)
|}.

(** [empty_traj.tree_replace({...})] with the seven entries of [step]. *)
Definition tree_replace (traj : State) (d : Data) : State := {|
  data := {| qpos := qpos d; qvel := qvel d; time := time d; ctrl := ctrl d;
             mocap_pos := mocap_pos d; mocap_quat := mocap_quat d;
             xfrc_applied := xfrc_applied d;
             data_rest := data_rest (data traj) |};
  state_rest := state_rest traj
|}.

(** [state.obs]. *)
Definition obs (state : State) : option array :=
  match get "obs" (state_rest state) with
  | Some o => o
  | None => None
  end.

(** The body of the scan. *)
Definition step (empty : State) (carry : State * key) : (State * key) * State :=
  let (state, rng) := carry in
  let act_key := subkey rng 2 1 in
  let rng := subkey rng 2 0 in
  let act := jit_inference_fn (obs state) act_key in
  let state := env_step state act in
  let traj_data := tree_replace empty (data state) in
  ((state, rng), traj_data).

Fixpoint scan (f : State * key -> (State * key) * State) (carry : State * key)
  (length : nat) : list State :=
  match length with
  | O => []
  | S n => let (carry', y) := f carry in y :: scan f carry' n
  end.

Definition do_rollout (episode_length : nat) (rng : key) (state : State)
  : list State :=
  scan (step (empty_traj state)) (state, rng) episode_length.

(** [x[i]] with a static index; out of range it is an [IndexError]. *)
Definition item {A : Type} (l : list A) (i : nat) : Exc A :=
  match nth_error l i with
  | Some x => Return x
  | None => Raise (IndexError "index out of bounds")
  end.

Fixpoint for_each {A B : Type} (f : A -> Exc B) (l : list A) : Exc (list B) :=
  match l with
  | [] => Return []
  | x :: r => y <~ f x ;; ys <~ for_each f r ;; Return (y :: ys)
  end.

(** Lines 461-470: [num_videos] rollouts of [episode_length] steps, unstacked
    into a list of lists of snapshots. *)
Definition record_rollouts (seed : Z) (num_videos episode_length : nat)
  : Exc (list (list State)) :=
  let rng := random_split (PRNGKey seed) num_videos in
  let reset_states := map reset rng in
  let traj_stacked :=
    map (fun rs => do_rollout episode_length (fst rs) (snd rs))
        (combine rng reset_states) in
  for_each (fun i =>
              t <~ item traj_stacked i ;;
              for_each (fun j => item t j) (seq 0 episode_length))
           (seq 0 num_videos).


End Rollout.

End TrainJaxPpo.

(* ===================================================================== *)
(** * Facts about the run time *)
(* ===================================================================== *)

Module PyFacts.
Import Py.
Local Open Scope py_scope.

Example int_examples :
  map int ["3"; "10"; " 3 "; "+3"; "-3"; "03"; "1_0"]
  = map Return [3; 10; 3; 3; -3; 3; 10]%Z
  /\ map parse_int [""; "abc"; "_1"; "1_"; "1__0"; "+"; "- 3"; "0x10"; "1 2"]
     = repeat None 9
  /\ int "abc" = Raise (ValueError "invalid literal for int() with base 10: 'abc'").
Proof. repeat split. Qed.

Example sort_examples :
  sort_by (fun x => int (fst x)) [("1", "b"); ("01", "a"); ("0", "c")]
  = Return [("0", "c"); ("1", "b"); ("01", "a")]
  /\ sort_by int ["3"; "abc"; "x"] = Raise (ValueError (invalid_literal "abc"))
  /\ last_item (@nil string) = Raise (IndexError "list index out of range").
Proof. repeat split. Qed.

Example repr_examples :
  repr_list ["a"; "b"] = "['a', 'b']"
  /\ repr "b'" = String quote2 ("b'" ++ String quote2 EmptyString)
  /\ repr "a\b" = "'a\\b'"
  /\ repr_tuple ["a"] = "('a',)"
  /\ lower "PPo" = "ppo".
Proof. repeat split. Qed.

Section DictFacts.
Context {V : Type}.
Implicit Types (d : dict V) (k : string) (v : V).

Lemma get_set_same k v d : get k (set k v d) = Some v.
Proof.
  induction d as [|[k' v'] r IH]; simpl.
  - now rewrite String.eqb_refl.
  - destruct (String.eqb k k') eqn:E; simpl.
    + now rewrite String.eqb_refl.
    + now rewrite E.
Qed.

Lemma get_set_other k k' v d : k' <> k -> get k' (set k v d) = get k' d.
Proof.
  intros Hne. induction d as [|[k0 v0] r IH]; simpl.
  - destruct (String.eqb_spec k' k); [contradiction | reflexivity].
  - destruct (String.eqb_spec k k0) as [->|Hk]; simpl.
    + destruct (String.eqb_spec k' k0); [contradiction | reflexivity].
    + now rewrite IH.
Qed.

Lemma mem_set_other k k' v d : k' <> k -> mem k' (set k v d) = mem k' d.
Proof. intros Hne. unfold mem. now rewrite get_set_other. Qed.

Lemma mem_true_iff k d : mem k d = true <-> exists v, get k d = Some v.
Proof.
  unfold mem. destruct (get k d) as [v|]; split; intros H.
  - now exists v.
  - reflexivity.
  - discriminate.
  - now destruct H.
Qed.

Lemma mem_false_iff k d : mem k d = false <-> get k d = None.
Proof. unfold mem. destruct (get k d); split; congruence. Qed.

Lemma get_In k v d : get k d = Some v -> In (k, v) d.
Proof.
  induction d as [|[k' v'] r IH]; simpl; [discriminate|].
  destruct (String.eqb_spec k k') as [->|Hk].
  - intros [= ->]. now left.
  - intros H. right. now apply IH.
Qed.

Lemma mem_keys k d : mem k d = true <-> In k (keys d).
Proof.
  unfold mem, keys. induction d as [|[k' v'] r IH]; simpl.
  - split; [discriminate | contradiction].
  - destruct (String.eqb_spec k k') as [->|Hk].
    + split; auto.
    + rewrite IH. split; [now right | intros [E|E]; congruence].
Qed.

Lemma get_del_same k d : get k (del k d) = None.
Proof.
  unfold del. induction d as [|[k' v'] r IH]; simpl; [reflexivity|].
  destruct (String.eqb k k') eqn:E; simpl; [assumption|].
  now rewrite E.
Qed.

Lemma get_del_other k k' d : k' <> k -> get k' (del k d) = get k' d.
Proof.
  intros Hne. unfold del. induction d as [|[k0 v0] r IH]; simpl; [reflexivity|].
  destruct (String.eqb_spec k k0) as [->|Hk]; simpl.
  - destruct (String.eqb_spec k' k0); [contradiction | assumption].
  - now rewrite IH.
Qed.

End DictFacts.

Lemma elem_In x l : elem x l = true <-> In x l.
Proof.
  unfold elem. rewrite existsb_exists. split.
  - intros (y & Hy & E). apply String.eqb_eq in E. now subst.
  - intros H. exists x. split; [assumption | apply String.eqb_refl].
Qed.

Lemma elem_keys_mem {V : Type} x (d : dict V) : elem x (keys d) = mem x d.
Proof.
  destruct (mem x d) eqn:E.
  - now apply elem_In, mem_keys.
  - destruct (elem x (keys d)) eqn:E'; [|reflexivity].
    apply elem_In, mem_keys in E'. congruence.
Qed.

(** *** Sorting *)
Section SortFacts.
Context {A : Type}.
Implicit Types (x y : Z * A) (l : list (Z * A)).

Definition le_key x y : Prop := (fst x <= fst y)%Z.

Lemma insert_perm x l : Permutation (insert x l) (x :: l).
Proof.
  induction l as [|y r IH]; simpl; [reflexivity|].
  destruct (fst x <=? fst y)%Z; [reflexivity|].
  rewrite IH. apply perm_swap.
Qed.


Inductive ascending : list (Z * A) -> Prop :=
| asc_nil : ascending []
| asc_cons x l : Forall (le_key x) l -> ascending l -> ascending (x :: l).

Lemma insert_ascending x l : ascending l -> ascending (insert x l).
Proof.
  induction 1 as [|y r Hy Hr IH]; simpl.
  - repeat constructor.
  - destruct (Z.leb_spec (fst x) (fst y)) as [Hle|Hgt].
    + constructor; [|now constructor].
      constructor; [exact Hle|].
      eapply Forall_impl; [|exact Hy].
      intros z Hz. unfold le_key in *. lia.
    + constructor; [|exact IH].
      eapply Permutation_Forall; [symmetry; apply insert_perm|].
      constructor; [unfold le_key; lia | exact Hy].
Qed.

Lemma sort_ascending l : ascending (sort l).
Proof.
  induction l as [|x r IH]; simpl; [constructor | now apply insert_ascending].
Qed.


End SortFacts.

Lemma last_item_map {A B : Type} (f : A -> B) (l : list A) (x : A) :
  last_item l = Return x -> last_item (map f l) = Return (f x).
Proof.
  induction l as [|a r IH]; simpl; [discriminate|].
  destruct r as [|b r']; simpl in *.
  - now intros [= ->].
  - exact IH.
Qed.

Lemma last_item_nil_iff {A : Type} (l : list A) :
  last_item l = Raise (IndexError "list index out of range") <-> l = [].
Proof.
  split; [|now intros ->].
  induction l as [|a r IH]; [reflexivity|].
  destruct r as [|b r']; simpl in *; [discriminate|].
  intros H. specialize (IH H). discriminate.
Qed.

(** *** Keys of a sort *)
Section KeyedFacts.
Context {A : Type}.
Variable f : A -> Exc Z.

Lemma keyed_ok (l : list A) :
  Forall (fun x => exists z, f x = Return z) l ->
  exists kl, keyed f l = Return kl
             /\ map snd kl = l
             /\ Forall (fun kx => f (snd kx) = Return (fst kx)) kl.
Proof.
  induction 1 as [|x r [z Hz] Hr (kr & Hk & Hs & Hf)]; simpl.
  - exists []. repeat split; constructor.
  - rewrite Hz, Hk. simpl. exists ((z, x) :: kr). repeat split.
    + simpl. now rewrite Hs.
    + now constructor.
Qed.


End KeyedFacts.

End PyFacts.

(* ===================================================================== *)
(** * Checkpoint resolution *)
(* ===================================================================== *)

Module CheckpointFacts.
Import Py Config World TrainJaxPpo PyFacts.
Local Open Scope py_scope.

(** The immediate subdirectories of [p], in listing order. *)
Definition subdirectories (H : Host) (p : path) : list path :=
  filter (is_dir H) (map (child p) (glob_star H p)).

(** A host on which [resolve s] is the one-component path [s], every path is
    a directory, and every directory lists [names]. *)
Definition host_listing (names : list string) : Host := {|
  timestamp := "20250101-000000";
  resolve := fun s => [s];
  is_dir := fun _ => true;
  glob_star := fun _ => names
|}.

Lemma name_child (p : path) (n : string) : name (child p n) = n.
Proof. unfold name, child. apply last_last. Qed.

Lemma int_Return_iff (s : string) (z : Z) : int s = Return z <-> parse_int s = Some z.
Proof.
  unfold int. destruct (parse_int s); split; intros E;
    try discriminate; now inversion E.
Qed.


(** The directory branch of the block, spelled out. *)
Lemma restore_from_directory (H : Host) (p : string) :
  is_dir H (resolve H p) = true ->
  restore_checkpoint_path H (Some p)
  = (latest_ckpts <- lift (sort_by (fun x => int (name x))
                                   (subdirectories H (resolve H p))) ;;
     latest_ckpt <- lift (last_item latest_ckpts) ;;
     emit (Print [Text "Restoring from: "; Shown (APath latest_ckpt)]) ;;
     ret (Some latest_ckpt))%py.
Proof. intros Hd. unfold restore_checkpoint_path. now rewrite Hd. Qed.






Example latest_of_3_10_2 :
  outcome (restore_checkpoint_path (host_listing ["3"; "10"; "2"]) (Some "ckpts"))
  = Return (Some ["ckpts"; "10"]).
Proof. reflexivity. Qed.

(** Whatever the order of the listing. *)
Example latest_in_any_order :
  map (fun names => outcome (restore_checkpoint_path (host_listing names) (Some "ckpts")))
      [ ["3"; "10"; "2"]; ["3"; "2"; "10"]; ["10"; "3"; "2"];
        ["10"; "2"; "3"]; ["2"; "3"; "10"]; ["2"; "10"; "3"] ]
  = repeat (Return (Some ["ckpts"; "10"])) 6.
Proof. reflexivity. Qed.






Example malformed_3_abc :
  outcome (restore_checkpoint_path (host_listing ["3"; "abc"]) (Some "ckpts"))
  = Raise (ValueError "invalid literal for int() with base 10: 'abc'").
Proof. reflexivity. Qed.

End CheckpointFacts.

(* ===================================================================== *)
(** * The registry *)
(* ===================================================================== *)

Module RegistryFacts.
Import Py Config World PyFacts.
Local Open Scope py_scope.

(** A default configuration for the examples. *)
Definition sample_config : ConfigDict :=
  [ ("ctrl_dt", VFloat 0.02%float); ("episode_length", VInt 1000) ].

Definition sample_tables : Locomotion.Tables := Locomotion.initial sample_config.

(** Every registration keeps [_envs] and [_cfgs] on the same keys. *)
Definition aligned (T : Locomotion.Tables) : Prop :=
  forall k, mem k (Locomotion._envs T) = mem k (Locomotion._cfgs T).

Lemma mem_set {V : Type} (k k' : string) (v : V) (d : dict V) :
  mem k' (set k v d) = (String.eqb k' k || mem k' d)%bool.
Proof.
  destruct (String.eqb_spec k' k) as [->|Hne]; simpl.
  - unfold mem. now rewrite get_set_same.
  - now apply mem_set_other.
Qed.

Lemma initial_aligned (c : ConfigDict) : aligned (Locomotion.initial c).
Proof.
  intros k. unfold mem. simpl.
  destruct (String.eqb k "G1JoystickFlatTerrain"); [reflexivity|].
  destruct (String.eqb k "G1JoystickRoughTerrain"); reflexivity.
Qed.

Lemma register_aligned (T : Locomotion.Tables) n cls cfg :
  aligned T -> aligned (Locomotion.register_environment n cls cfg T).
Proof. intros HT k. simpl. rewrite !mem_set. now rewrite HT. Qed.

(** For a name outside every suite the top-level registry raises a
    [ValueError] whose text is fixed but for the name asked for. *)
Lemma unknown_env_message (R : Registry.State) (env_name : string) :
  mem env_name (Locomotion._envs (Registry.locomotion R)) = false ->
  Registry.get_default_config R env_name
  = Raise (ValueError ("Env '" ++ env_name ++ "' not found in default configs.")).
Proof.
  intros Hm. unfold Registry.get_default_config, Locomotion.ALL_ENVS.
  now rewrite elem_keys_mem, Hm.
Qed.

(** With the tables aligned, the message of the suite, which does list the
    registered names, is never reached through the top-level registry. *)
Lemma known_env_has_config (R : Registry.State) (env_name : string) :
  aligned (Registry.locomotion R) ->
  mem env_name (Locomotion._envs (Registry.locomotion R)) = true ->
  exists cfg, Registry.get_default_config R env_name = Return cfg
              /\ get env_name (Locomotion._cfgs (Registry.locomotion R)) = Some cfg.
Proof.
  intros Ha Hm. unfold Registry.get_default_config, Locomotion.ALL_ENVS.
  rewrite elem_keys_mem, Hm. rewrite Ha in Hm.
  apply mem_true_iff in Hm. destruct Hm as [cfg Hc]. exists cfg.
  unfold Locomotion.get_default_config. now rewrite Hc.
Qed.

(** C6 at the input of the specification: the top-level registry's message
    shows no registered name, while the suite's own message lists them. *)
Theorem C6_top_level_message_lists_no_names :
  forall g1_default_config : ConfigDict,
    let R := Registry.imported (Locomotion.initial g1_default_config) in
    Registry.get_default_config R "DoesNotExist"
    = Raise (ValueError "Env 'DoesNotExist' not found in default configs.")
    /\ existsb (fun n => contains n "Env 'DoesNotExist' not found in default configs.")
               (Locomotion.ALL_ENVS (Registry.locomotion R)) = false
    /\ Locomotion.get_default_config (Registry.locomotion R) "DoesNotExist"
       = Raise (ValueError
                  ("Env 'DoesNotExist' not found in default configs. Available configs: "
                   ++ "['G1JoystickFlatTerrain', 'G1JoystickRoughTerrain']")).
Proof. intros c. repeat split. Qed.

(** C10: [load] treats a falsy configuration as an absent one, in the suite
    and through the top-level registry, and builds the environment from the
    default configuration. *)
Theorem C10_falsy_config_means_default :
  forall (R : Registry.State) (env_name : string)
         (config : option ConfigDict) (config_overrides : option (dict value)),
    falsy config = true ->
    Locomotion.load (Registry.locomotion R) env_name config config_overrides
    = Locomotion.load (Registry.locomotion R) env_name None config_overrides
    /\ Registry.load R env_name config config_overrides
       = Registry.load R env_name None config_overrides
    /\ forall cls default,
         get env_name (Locomotion._envs (Registry.locomotion R)) = Some cls ->
         Locomotion.get_default_config (Registry.locomotion R) env_name = Return default ->
         let env := {| env_class := cls; env_config := default;
                       env_config_overrides := config_overrides |} in
         Registry.load R env_name config config_overrides
         = ([Call "mjx_env.ensure_menagerie_exists" []; Construct env], Return env).
Proof.
  intros R env_name config ov Hf.
  assert (E : Locomotion.load (Registry.locomotion R) env_name config ov
              = Locomotion.load (Registry.locomotion R) env_name None ov).
  { destruct config as [c|]; [|reflexivity].
    unfold Locomotion.load. simpl in Hf.
    destruct (truthy c); [discriminate | reflexivity]. }
  split; [exact E|]. split.
  - unfold Registry.load. now rewrite E.
  - intros cls default Hcls Hdef env.
    unfold Registry.load, Locomotion.ALL_ENVS.
    rewrite elem_keys_mem.
    assert (Hm : mem env_name (Locomotion._envs (Registry.locomotion R)) = true)
      by (apply mem_true_iff; now exists cls).
    rewrite Hm, E. unfold Locomotion.load. rewrite Hcls, Hdef. reflexivity.
Qed.

Lemma C10_witness_empty_config :
  let R := Registry.imported sample_tables in
  Locomotion.load sample_tables "G1JoystickFlatTerrain" (Some []) None
  = Locomotion.load sample_tables "G1JoystickFlatTerrain" None None
  /\ Registry.load R "G1JoystickFlatTerrain" (Some []) None
     = Registry.load R "G1JoystickFlatTerrain" None None
  /\ forall cls default,
       get "G1JoystickFlatTerrain" (Locomotion._envs sample_tables) = Some cls ->
       Locomotion.get_default_config sample_tables "G1JoystickFlatTerrain" = Return default ->
       let env := {| env_class := cls; env_config := default;
                     env_config_overrides := None |} in
       Registry.load R "G1JoystickFlatTerrain" (Some []) None
       = ([Call "mjx_env.ensure_menagerie_exists" []; Construct env], Return env).
Proof.
  exact (C10_falsy_config_means_default (Registry.imported sample_tables)
           "G1JoystickFlatTerrain" (Some []) None eq_refl).
Defined.

Example load_with_empty_config :
  outcome (Registry.load (Registry.imported sample_tables)
             "G1JoystickFlatTerrain" (Some []) None)
  = Return {| env_class := Joystick "flat_terrain";
              env_config := sample_config;
              env_config_overrides := None |}.
Proof. reflexivity. Qed.

(** A configuration that is not falsy is the one the environment gets. *)
Lemma truthy_config_is_used (R : Registry.State) env_name c ov cls :
  truthy c = true ->
  get env_name (Locomotion._envs (Registry.locomotion R)) = Some cls ->
  outcome (Registry.load R env_name (Some c) ov)
  = Return {| env_class := cls; env_config := c; env_config_overrides := ov |}.
Proof.
  intros Ht Hcls. unfold Registry.load, Locomotion.ALL_ENVS.
  rewrite elem_keys_mem.
  assert (Hm : mem env_name (Locomotion._envs (Registry.locomotion R)) = true)
    by (apply mem_true_iff; now exists cls).
  rewrite Hm. unfold Locomotion.load. now rewrite Hcls, Ht.
Qed.

End RegistryFacts.

(* ===================================================================== *)
(** * Configuration resolution *)
(* ===================================================================== *)

Module ConfigFacts.
Import Py Config World TrainJaxPpo PyFacts.
Local Open Scope py_scope.

(** ** Sample command lines *)

(** The command line [--learning_rate=x]. *)
Definition supply_learning_rate (x : float) (P : ParamFlags)
  : ParamFlags := {|
  _NUM_TIMESTEPS := _NUM_TIMESTEPS P;
  _NUM_EVALS := _NUM_EVALS P;
  _REWARD_SCALING := _REWARD_SCALING P;
  _EPISODE_LENGTH := _EPISODE_LENGTH P;
  _NORMALIZE_OBSERVATIONS := _NORMALIZE_OBSERVATIONS P;
  _ACTION_REPEAT := _ACTION_REPEAT P;
  _UNROLL_LENGTH := _UNROLL_LENGTH P;
  _NUM_MINIBATCHES := _NUM_MINIBATCHES P;
  _NUM_UPDATES_PER_BATCH := _NUM_UPDATES_PER_BATCH P;
  _DISCOUNTING := _DISCOUNTING P;
  _LEARNING_RATE := Absl.given x;
  _ENTROPY_COST := _ENTROPY_COST P;
  _NUM_ENVS := _NUM_ENVS P;
  _NUM_EVAL_ENVS := _NUM_EVAL_ENVS P;
  _BATCH_SIZE := _BATCH_SIZE P;
  _MAX_GRAD_NORM := _MAX_GRAD_NORM P;
  _CLIPPING_EPSILON := _CLIPPING_EPSILON P;
  _POLICY_HIDDEN_LAYER_SIZES := _POLICY_HIDDEN_LAYER_SIZES P;
  _VALUE_HIDDEN_LAYER_SIZES := _VALUE_HIDDEN_LAYER_SIZES P;
  _POLICY_OBS_KEY := _POLICY_OBS_KEY P;
  _VALUE_OBS_KEY := _VALUE_OBS_KEY P;
  _RUN_EVALS := _RUN_EVALS P;
  _LOG_TRAINING_METRICS := _LOG_TRAINING_METRICS P;
  _TRAINING_METRICS_STEPS := _TRAINING_METRICS_STEPS P
|}.

(** The command line [--policy_hidden_layer_sizes=a,b,...]. *)
Definition supply_policy_hidden_layer_sizes (x : list string) (P : ParamFlags)
  : ParamFlags := {|
  _NUM_TIMESTEPS := _NUM_TIMESTEPS P;
  _NUM_EVALS := _NUM_EVALS P;
  _REWARD_SCALING := _REWARD_SCALING P;
  _EPISODE_LENGTH := _EPISODE_LENGTH P;
  _NORMALIZE_OBSERVATIONS := _NORMALIZE_OBSERVATIONS P;
  _ACTION_REPEAT := _ACTION_REPEAT P;
  _UNROLL_LENGTH := _UNROLL_LENGTH P;
  _NUM_MINIBATCHES := _NUM_MINIBATCHES P;
  _NUM_UPDATES_PER_BATCH := _NUM_UPDATES_PER_BATCH P;
  _DISCOUNTING := _DISCOUNTING P;
  _LEARNING_RATE := _LEARNING_RATE P;
  _ENTROPY_COST := _ENTROPY_COST P;
  _NUM_ENVS := _NUM_ENVS P;
  _NUM_EVAL_ENVS := _NUM_EVAL_ENVS P;
  _BATCH_SIZE := _BATCH_SIZE P;
  _MAX_GRAD_NORM := _MAX_GRAD_NORM P;
  _CLIPPING_EPSILON := _CLIPPING_EPSILON P;
  _POLICY_HIDDEN_LAYER_SIZES := Absl.given x;
  _VALUE_HIDDEN_LAYER_SIZES := _VALUE_HIDDEN_LAYER_SIZES P;
  _POLICY_OBS_KEY := _POLICY_OBS_KEY P;
  _VALUE_OBS_KEY := _VALUE_OBS_KEY P;
  _RUN_EVALS := _RUN_EVALS P;
  _LOG_TRAINING_METRICS := _LOG_TRAINING_METRICS P;
  _TRAINING_METRICS_STEPS := _TRAINING_METRICS_STEPS P
|}.

(** The command line [--policy_obs_key=x]. *)
Definition supply_policy_obs_key (x : string) (P : ParamFlags)
  : ParamFlags := {|
  _NUM_TIMESTEPS := _NUM_TIMESTEPS P;
  _NUM_EVALS := _NUM_EVALS P;
  _REWARD_SCALING := _REWARD_SCALING P;
  _EPISODE_LENGTH := _EPISODE_LENGTH P;
  _NORMALIZE_OBSERVATIONS := _NORMALIZE_OBSERVATIONS P;
  _ACTION_REPEAT := _ACTION_REPEAT P;
  _UNROLL_LENGTH := _UNROLL_LENGTH P;
  _NUM_MINIBATCHES := _NUM_MINIBATCHES P;
  _NUM_UPDATES_PER_BATCH := _NUM_UPDATES_PER_BATCH P;
  _DISCOUNTING := _DISCOUNTING P;
  _LEARNING_RATE := _LEARNING_RATE P;
  _ENTROPY_COST := _ENTROPY_COST P;
  _NUM_ENVS := _NUM_ENVS P;
  _NUM_EVAL_ENVS := _NUM_EVAL_ENVS P;
  _BATCH_SIZE := _BATCH_SIZE P;
  _MAX_GRAD_NORM := _MAX_GRAD_NORM P;
  _CLIPPING_EPSILON := _CLIPPING_EPSILON P;
  _POLICY_HIDDEN_LAYER_SIZES := _POLICY_HIDDEN_LAYER_SIZES P;
  _VALUE_HIDDEN_LAYER_SIZES := _VALUE_HIDDEN_LAYER_SIZES P;
  _POLICY_OBS_KEY := Absl.given x;
  _VALUE_OBS_KEY := _VALUE_OBS_KEY P;
  _RUN_EVALS := _RUN_EVALS P;
  _LOG_TRAINING_METRICS := _LOG_TRAINING_METRICS P;
  _TRAINING_METRICS_STEPS := _TRAINING_METRICS_STEPS P
|}.

(** The command line [--agent=x]. *)
Definition supply_agent (x : string) (Q : RunFlags)
  : RunFlags := {|
  _ENV_NAME := _ENV_NAME Q;
  _AGENT := Absl.given x;
  _IMPL := _IMPL Q;
  _SUFFIX := _SUFFIX Q;
  _PLAY_ONLY := _PLAY_ONLY Q;
  _USE_WANDB := _USE_WANDB Q;
  _USE_TB := _USE_TB Q;
  _LOAD_CHECKPOINT_PATH := _LOAD_CHECKPOINT_PATH Q;
  _DOMAIN_RANDOMIZATION := _DOMAIN_RANDOMIZATION Q;
  _SEED := _SEED Q;
  _RSCOPE_ENVS := _RSCOPE_ENVS Q;
  _DETERMINISTIC_RSCOPE := _DETERMINISTIC_RSCOPE Q;
  _NUM_VIDEOS := _NUM_VIDEOS Q
|}.

(** The command line [--env_name=x]. *)
Definition supply_env_name (x : string) (Q : RunFlags)
  : RunFlags := {|
  _ENV_NAME := Absl.given x;
  _AGENT := _AGENT Q;
  _IMPL := _IMPL Q;
  _SUFFIX := _SUFFIX Q;
  _PLAY_ONLY := _PLAY_ONLY Q;
  _USE_WANDB := _USE_WANDB Q;
  _USE_TB := _USE_TB Q;
  _LOAD_CHECKPOINT_PATH := _LOAD_CHECKPOINT_PATH Q;
  _DOMAIN_RANDOMIZATION := _DOMAIN_RANDOMIZATION Q;
  _SEED := _SEED Q;
  _RSCOPE_ENVS := _RSCOPE_ENVS Q;
  _DETERMINISTIC_RSCOPE := _DETERMINISTIC_RSCOPE Q;
  _NUM_VIDEOS := _NUM_VIDEOS Q
|}.

(** The command line [--domain_randomization]. *)
Definition supply_domain_randomization (x : bool) (Q : RunFlags)
  : RunFlags := {|
  _ENV_NAME := _ENV_NAME Q;
  _AGENT := _AGENT Q;
  _IMPL := _IMPL Q;
  _SUFFIX := _SUFFIX Q;
  _PLAY_ONLY := _PLAY_ONLY Q;
  _USE_WANDB := _USE_WANDB Q;
  _USE_TB := _USE_TB Q;
  _LOAD_CHECKPOINT_PATH := _LOAD_CHECKPOINT_PATH Q;
  _DOMAIN_RANDOMIZATION := Absl.given x;
  _SEED := _SEED Q;
  _RSCOPE_ENVS := _RSCOPE_ENVS Q;
  _DETERMINISTIC_RSCOPE := _DETERMINISTIC_RSCOPE Q;
  _NUM_VIDEOS := _NUM_VIDEOS Q
|}.

Definition with_params (P : ParamFlags) : Flags :=
  {| run := run_defaults; params := P |}.

Definition with_run (Q : RunFlags) : Flags :=
  {| run := Q; params := param_defaults |}.

(** Training parameters in the shape [brax_ppo_config] gives them. *)
Definition sample_network_factory : ConfigDict :=
  [ ("policy_hidden_layer_sizes", VTuple [VInt 128; VInt 128]);
    ("value_hidden_layer_sizes", VTuple [VInt 256; VInt 256]);
    ("policy_obs_key", VStr "state");
    ("value_obs_key", VStr "privileged_state") ].

Definition sample_rl_config : ConfigDict :=
  [ ("num_timesteps", VInt 100000000);
    ("num_evals", VInt 10);
    ("episode_length", VInt 1000);
    ("action_repeat", VInt 1);
    ("learning_rate", VFloat 3e-4%float);
    ("num_envs", VInt 8192);
    ("network_factory", VConfig sample_network_factory) ].

(** The same parameters without the [network_factory] sub-tree. *)
Definition flat_rl_config : ConfigDict :=
  [ ("num_timesteps", VInt 100000000);
    ("learning_rate", VFloat 3e-4%float) ].

(** ** Reading the resolved parameters *)

(** The value under a top-level key. *)
Definition lookup (k : string) (rl : RlParams) : option value :=
  match rl with
  | Tree c => get k c
  | Instance _ attrs => get k attrs
  end.

(** The value under a key of the [network_factory] sub-tree. *)
Definition nested_lookup (k : string) (rl : RlParams) : option value :=
  match lookup "network_factory" rl with
  | Some (VConfig fields) => get k fields
  | _ => None
  end.

Definition top_key (t : Target) : string :=
  match t with
  | Top k => k
  | Nested _ => "network_factory"
  end.

Definition is_nested (o : Override) : bool :=
  match target o with
  | Nested _ => true
  | Top _ => false
  end.

(** The names of the flags the command line supplied, in table order. *)
Definition supplied_flags (os : list Override) : list string :=
  map flag (filter supplied os).

(** The top-level keys, and the keys of the sub-tree, that supplied flags
    assign to. *)
Definition assigned (os : list Override) : list string :=
  map (fun o => top_key (target o)) (filter supplied os).

Definition assigned_nested (os : list Override) : list string :=
  flat_map (fun o => match target o with Nested k => [k] | Top _ => [] end)
           (filter supplied os).

Definition nested_flags : list string :=
  [ "policy_hidden_layer_sizes"; "value_hidden_layer_sizes";
    "policy_obs_key"; "value_obs_key" ].

(** The overrides that assign to top-level fields. *)
Definition top_level_only (os : list Override) : list Override :=
  filter (fun o => negb (is_nested o)) os.

Definition nested_supplied (os : list Override) : bool :=
  existsb (fun o => supplied o && is_nested o) os.

(** ** Single assignments *)
Section Frames.
Variable check_write : ConfigDict -> string -> value -> Exc value.

Lemma ebind_Return_r {A : Type} (m : Exc A) : ebind m Return = m.
Proof. now destruct m. Qed.

Lemma setattr_inv c k v c' :
  setattr check_write c k v = Return c' ->
  exists v', check_write c k v = Return v' /\ c' = set k v' c.
Proof.
  unfold setattr, setitem, ebind.
  destruct (check_write c k v) as [e|v']; simpl.
  - destruct e; discriminate.
  - intros E. inversion E. now exists v'.
Qed.

Lemma rl_setattr_frame rl k v rl' k0 :
  rl_setattr check_write rl k v = Return rl' -> k0 <> k ->
  lookup k0 rl' = lookup k0 rl.
Proof.
  destruct rl as [c|e attrs]; simpl; intros E Hne.
  - destruct (setattr check_write c k v) as [e|c'] eqn:Es; simpl in E; [discriminate|].
    inversion E; subst rl'. apply setattr_inv in Es. destruct Es as (v' & _ & ->).
    simpl. now apply get_set_other.
  - inversion E; subst rl'. simpl. now apply get_set_other.
Qed.

Lemma lookup_rl_replace_same rl k v : lookup k (rl_replace rl k v) = Some v.
Proof. destruct rl; simpl; apply get_set_same. Qed.

Lemma lookup_rl_replace_other rl k v k0 :
  k0 <> k -> lookup k0 (rl_replace rl k v) = lookup k0 rl.
Proof. intros Hne. destruct rl; simpl; now apply get_set_other. Qed.

Lemma rl_getattr_lookup rl k :
  rl_getattr rl k = match lookup k rl with
                    | Some v => Return v
                    | None => Raise (AttributeError k)
                    end.
Proof. now destruct rl. Qed.

Lemma rl_setnested_inv rl k v rl' :
  rl_setnested check_write rl k v = Return rl' ->
  exists fields v',
    lookup "network_factory" rl = Some (VConfig fields)
    /\ check_write fields k v = Return v'
    /\ rl' = rl_replace rl "network_factory" (VConfig (set k v' fields)).
Proof.
  unfold rl_setnested. rewrite rl_getattr_lookup.
  destruct (lookup "network_factory" rl) as [nf|]; simpl; [|discriminate].
  destruct nf; try discriminate.
  destruct (setattr check_write fields k v) as [e|fields'] eqn:Es; simpl; [discriminate|].
  intros E. inversion E; subst rl'.
  apply setattr_inv in Es. destruct Es as (v' & Hv & ->).
  now exists fields, v'.
Qed.

(** On parameters without a [network_factory], a nested assignment stops at
    the attribute read. *)
Lemma rl_setnested_missing rl k v :
  lookup "network_factory" rl = None ->
  rl_setnested check_write rl k v = Raise (AttributeError "network_factory").
Proof.
  intros Hn. unfold rl_setnested. rewrite rl_getattr_lookup, Hn. reflexivity.
Qed.

(** ** One override *)

Lemma apply_override_skipped rl o :
  supplied o = false -> apply_override check_write rl o = Return rl.
Proof. unfold apply_override. now intros ->. Qed.

Lemma apply_override_frame rl o rl' k :
  apply_override check_write rl o = Return rl' ->
  (supplied o = true -> top_key (target o) <> k) ->
  lookup k rl' = lookup k rl.
Proof.
  unfold apply_override. destruct (supplied o).
  - intros E Hk. specialize (Hk eq_refl).
    destruct (rhs o) as [e|v]; simpl in E; [discriminate|].
    destruct (target o) as [k0|k0]; simpl in Hk.
    + eapply rl_setattr_frame; eauto.
    + apply rl_setnested_inv in E. destruct E as (fields & v' & _ & _ & ->).
      apply lookup_rl_replace_other. congruence.
  - intros E _. now inversion E.
Qed.

Lemma apply_override_nested_frame rl o rl' k :
  apply_override check_write rl o = Return rl' ->
  target o <> Top "network_factory" ->
  (supplied o = true -> target o <> Nested k) ->
  nested_lookup k rl' = nested_lookup k rl.
Proof.
  unfold apply_override. destruct (supplied o).
  - intros E Htop Hk. specialize (Hk eq_refl).
    destruct (rhs o) as [e|v]; simpl in E; [discriminate|].
    destruct (target o) as [k0|k0].
    + unfold nested_lookup.
      rewrite (rl_setattr_frame _ _ _ _ "network_factory" E); [reflexivity|].
      congruence.
    + apply rl_setnested_inv in E. destruct E as (fields & v' & Hnf & _ & ->).
      unfold nested_lookup. rewrite lookup_rl_replace_same, Hnf.
      apply get_set_other. congruence.
  - intros E _ _. now inversion E.
Qed.

(** ** The whole table *)

Lemma apply_overrides_supplied_only os rl :
  apply_overrides check_write os rl
  = apply_overrides check_write (filter supplied os) rl.
Proof.
  revert rl. induction os as [|o r IH]; intros rl; simpl; [reflexivity|].
  destruct (supplied o) eqn:Es; simpl.
  - destruct (apply_override check_write rl o); simpl; [reflexivity | apply IH].
  - rewrite apply_override_skipped by assumption. simpl. apply IH.
Qed.

Lemma apply_overrides_frame os rl rl' k :
  apply_overrides check_write os rl = Return rl' ->
  ~ In k (assigned os) ->
  lookup k rl' = lookup k rl.
Proof.
  revert rl. induction os as [|o r IH]; intros rl; simpl.
  - intros E _. now inversion E.
  - destruct (apply_override check_write rl o) as [e|rl1] eqn:E1; simpl; [discriminate|].
    intros E Hk. unfold assigned in Hk. simpl in Hk.
    rewrite (IH rl1 E).
    + apply (apply_override_frame _ _ _ _ E1).
      intros Hs. rewrite Hs in Hk. simpl in Hk. intros Eq. apply Hk. now left.
    + unfold assigned. destruct (supplied o); simpl in Hk; tauto.
Qed.

Lemma apply_overrides_nested_frame os rl rl' k :
  apply_overrides check_write os rl = Return rl' ->
  Forall (fun o => target o <> Top "network_factory") os ->
  ~ In k (assigned_nested os) ->
  nested_lookup k rl' = nested_lookup k rl.
Proof.
  revert rl. induction os as [|o r IH]; intros rl; simpl.
  - intros E _ _. now inversion E.
  - destruct (apply_override check_write rl o) as [e|rl1] eqn:E1; simpl; [discriminate|].
    intros E Hall Hk. inversion Hall as [|? ? Ho Hr]; subst.
    unfold assigned_nested in Hk. simpl in Hk.
    rewrite (IH rl1 E Hr).
    + apply (apply_override_nested_frame _ _ _ _ E1 Ho).
      intros Hs. rewrite Hs in Hk. simpl in Hk. intros Eq. rewrite Eq in Hk.
      apply Hk. simpl. now left.
    + unfold assigned_nested. destruct (supplied o); simpl in Hk; [|exact Hk].
      intros Hin. apply Hk. apply in_or_app. now right.
Qed.

Lemma apply_overrides_top_level_only os rl :
  nested_supplied os = false ->
  apply_overrides check_write os rl
  = apply_overrides check_write (top_level_only os) rl.
Proof.
  revert rl. induction os as [|o r IH]; intros rl; simpl; [reflexivity|].
  intros Hn. apply orb_false_iff in Hn. destruct Hn as [Ho Hr].
  destruct (is_nested o) eqn:En; simpl.
  - rewrite andb_true_r in Ho.
    rewrite apply_override_skipped by assumption. simpl. now apply IH.
  - destruct (apply_override check_write rl o); simpl; [reflexivity | now apply IH].
Qed.

(** Without a [network_factory] to write into, a supplied nested override
    ends the resolution with an exception. *)
Lemma apply_overrides_nested_raises os rl :
  Forall (fun o => target o <> Top "network_factory") os ->
  lookup "network_factory" rl = None ->
  nested_supplied os = true ->
  exists e, apply_overrides check_write os rl = Raise e.
Proof.
  revert rl. induction os as [|o r IH]; intros rl Hall Hnf Hn; simpl in *; [discriminate|].
  inversion Hall as [|? ? Ho Hr]; subst.
  destruct (apply_override check_write rl o) as [e|rl1] eqn:E1; simpl; [now exists e|].
  destruct (supplied o && is_nested o) eqn:Eo; simpl in Hn.
  - apply andb_true_iff in Eo. destruct Eo as [Hs Hnest].
    unfold apply_override in E1. rewrite Hs in E1.
    destruct (rhs o) as [e|v]; simpl in E1; [discriminate|].
    unfold is_nested in Hnest. destruct (target o) as [k0|k0]; [discriminate|].
    rewrite rl_setnested_missing in E1 by assumption. discriminate.
  - apply IH; auto.
    rewrite (apply_override_frame _ _ _ "network_factory" E1); [assumption|].
    intros Hs. destruct (target o) as [k0|k0] eqn:Et; simpl.
    + congruence.
    + unfold is_nested in Eo. rewrite Hs, Et in Eo. discriminate.
Qed.

End Frames.

(** ** The table of the script *)

Ltac each_override Hin :=
  unfold overrides in Hin; simpl in Hin;
  repeat (destruct Hin as [<-|Hin]; [simpl in *|]); try contradiction.

Lemma overrides_keep_subtree_key (F : Flags) :
  Forall (fun o => target o <> Top "network_factory") (overrides F).
Proof. unfold overrides. repeat (constructor; [simpl; discriminate|]). constructor. Qed.

Lemma learning_rate_entry (F : Flags) (o : Override) :
  In o (overrides F) -> flag o = "learning_rate" ->
  o = top (_LEARNING_RATE (params F)) "learning_rate" VFloat.
Proof. intros Hin Hf. each_override Hin; try discriminate Hf; reflexivity. Qed.

Lemma nested_entry (F : Flags) (o : Override) (n : string) :
  In n nested_flags -> In o (overrides F) -> flag o = n -> target o = Nested n.
Proof.
  intros Hn Hin Hf. unfold nested_flags in Hn. simpl in Hn.
  destruct Hn as [<-|[<-|[<-|[<-|[]]]]];
    each_override Hin; try discriminate Hf; reflexivity.
Qed.

Lemma single_supplied (os : list Override) (n : string) :
  map flag (filter supplied os) = [n] ->
  exists o, filter supplied os = [o] /\ flag o = n /\ In o os /\ supplied o = true.
Proof.
  intros E. destruct (filter supplied os) as [|o [|o' r]] eqn:Ef; try discriminate.
  inversion E.
  assert (Hin : In o (filter supplied os)) by (rewrite Ef; left; reflexivity).
  apply filter_In in Hin. destruct Hin as [Hin Hs].
  exists o. repeat split; assumption.
Qed.

Lemma no_nested_no_subtree_key (os : list Override) :
  Forall (fun o => target o <> Top "network_factory") os ->
  nested_supplied os = false ->
  ~ In "network_factory" (assigned os).
Proof.
  induction 1 as [|o r Ho Hr IH]; simpl; [tauto|].
  intros Hn. apply orb_false_iff in Hn. destruct Hn as [Hs Hn].
  unfold assigned. simpl. destruct (supplied o) eqn:Es; simpl.
  - intros [E|Hin]; [|now apply IH].
    unfold is_nested in Hs. destruct (target o) as [k|k]; simpl in *; congruence.
  - now apply IH.
Qed.

(** With exactly one flag supplied, the resolution is that one override. *)
Lemma resolve_single check_write (os : list Override) (rl : RlParams) (n : string) :
  supplied_flags os = [n] ->
  exists o, In o os /\ flag o = n /\ supplied o = true
            /\ filter supplied os = [o]
            /\ apply_overrides check_write os rl = apply_override check_write rl o.
Proof.
  intros Hs.
  destruct (single_supplied os n Hs) as (o & Ef & Hf & Hin & Hsup).
  exists o.
  split; [exact Hin|]. split; [exact Hf|]. split; [exact Hsup|]. split; [exact Ef|].
  rewrite apply_overrides_supplied_only, Ef.
  cbn [apply_overrides]. apply ebind_Return_r.
Qed.

Lemma resolve_config_eq check_write (F : Flags) (rl : RlParams) :
  resolve_config check_write F rl = apply_overrides check_write (overrides F) rl.
Proof. reflexivity. Qed.

(** C1: the resolution merges leaf by leaf.  Flags that were not supplied
    change nothing; a field no supplied flag assigns to keeps the value of the
    base tree, at the top level and inside [network_factory]; with only
    [learning_rate] supplied every other top-level field is the base's, and
    with only one [network_factory] flag supplied every sibling field of the
    sub-tree, and every other top-level field, is the base's. *)
Theorem C1_sparse_leaf_merge :
  forall (check_write : ConfigDict -> string -> value -> Exc value)
         (F : Flags) (base : ConfigDict),
    (supplied_flags (overrides F) = [] ->
       resolve_config check_write F (Tree base) = Return (Tree base))
    /\ (forall resolved,
          resolve_config check_write F (Tree base) = Return resolved ->
          (forall k, ~ In k (assigned (overrides F)) ->
                     lookup k resolved = get k base)
          /\ (forall k, ~ In k (assigned_nested (overrides F)) ->
                        nested_lookup k resolved = nested_lookup k (Tree base)))
    /\ (supplied_flags (overrides F) = ["learning_rate"] ->
          resolve_config check_write F (Tree base)
          = rl_setattr check_write (Tree base) "learning_rate"
              (VFloat (Absl.value (_LEARNING_RATE (params F))))
          /\ forall resolved,
               resolve_config check_write F (Tree base) = Return resolved ->
               forall k, k <> "learning_rate" -> lookup k resolved = get k base)
    /\ (forall n, In n nested_flags -> supplied_flags (overrides F) = [n] ->
          exists o,
            In o (overrides F) /\ flag o = n /\ target o = Nested n
            /\ resolve_config check_write F (Tree base)
               = apply_override check_write (Tree base) o
            /\ forall resolved,
                 resolve_config check_write F (Tree base) = Return resolved ->
                 (forall k, k <> n ->
                    nested_lookup k resolved = nested_lookup k (Tree base))
                 /\ (forall k, k <> "network_factory" ->
                       lookup k resolved = get k base)).
Proof.
  intros cw F base.
  pose proof (overrides_keep_subtree_key F) as Hkeep.
  pose proof (learning_rate_entry F) as Hlr.
  pose proof (nested_entry F) as Hnest.
  rewrite !resolve_config_eq.
  generalize dependent (overrides F). intros os Hkeep Hlr Hnest.
  pose proof (resolve_single cw os (Tree base)) as Hsingle.
  split; [|split; [|split]].
  - intros Hs. unfold supplied_flags in Hs. apply map_eq_nil in Hs.
    rewrite apply_overrides_supplied_only, Hs. reflexivity.
  - intros resolved Hr. split; intros k Hk.
    + exact (apply_overrides_frame cw os _ _ k Hr Hk).
    + exact (apply_overrides_nested_frame cw os _ _ k Hr Hkeep Hk).
  - intros Hs.
    destruct (Hsingle _ Hs) as (o & Hin & Hf & Hsup & Ef & Hres).
    pose proof (Hlr o Hin Hf) as Ho.
    split.
    + rewrite Hres. unfold apply_override. rewrite Hsup. rewrite Ho. reflexivity.
    + intros resolved Hr k Hk.
      apply (apply_overrides_frame cw os _ _ k Hr).
      unfold assigned. rewrite Ef, Ho. cbn [map top target top_key].
      intros [E|[]]. congruence.
  - intros n Hn Hs.
    destruct (Hsingle _ Hs) as (o & Hin & Hf & Hsup & Ef & Hres).
    pose proof (Hnest o n Hn Hin Hf) as Ht.
    exists o.
    split; [exact Hin|]. split; [exact Hf|]. split; [exact Ht|]. split; [exact Hres|].
    intros resolved Hr. split; intros k Hk.
    + apply (apply_overrides_nested_frame cw os _ _ k Hr Hkeep).
      unfold assigned_nested. rewrite Ef. cbn [flat_map app]. rewrite Ht.
      intros [E|[]]. congruence.
    + apply (apply_overrides_frame cw os _ _ k Hr).
      unfold assigned. rewrite Ef. cbn [map]. rewrite Ht.
      intros [E|[]]. apply Hk. symmetry. exact E.
Qed.

(** [--learning_rate=0.001] on the sample parameters. *)
Lemma C1_witness_learning_rate :
  let F := with_params (supply_learning_rate 1e-3%float param_defaults) in
  resolve_config unchecked F (Tree sample_rl_config)
  = rl_setattr unchecked (Tree sample_rl_config) "learning_rate" (VFloat 1e-3%float)
  /\ forall resolved,
       resolve_config unchecked F (Tree sample_rl_config) = Return resolved ->
       forall k, k <> "learning_rate" -> lookup k resolved = get k sample_rl_config.
Proof.
  exact (proj1 (proj2 (proj2
           (C1_sparse_leaf_merge unchecked
              (with_params (supply_learning_rate 1e-3%float param_defaults))
              sample_rl_config))) eq_refl).
Defined.

Example resolve_learning_rate :
  resolve_config unchecked
    (with_params (supply_learning_rate 1e-3%float param_defaults))
    (Tree sample_rl_config)
  = Return (Tree [ ("num_timesteps", VInt 100000000);
                   ("num_evals", VInt 10);
                   ("episode_length", VInt 1000);
                   ("action_repeat", VInt 1);
                   ("learning_rate", VFloat 1e-3%float);
                   ("num_envs", VInt 8192);
                   ("network_factory", VConfig sample_network_factory) ]).
Proof. reflexivity. Qed.

Example resolve_policy_hidden_layer_sizes :
  resolve_config unchecked
    (with_params (supply_policy_hidden_layer_sizes ["32"; "16"] param_defaults))
    (Tree sample_rl_config)
  = Return (Tree [ ("num_timesteps", VInt 100000000);
                   ("num_evals", VInt 10);
                   ("episode_length", VInt 1000);
                   ("action_repeat", VInt 1);
                   ("learning_rate", VFloat 3e-4%float);
                   ("num_envs", VInt 8192);
                   ("network_factory",
                    VConfig [ ("policy_hidden_layer_sizes", VList [VInt 32; VInt 16]);
                              ("value_hidden_layer_sizes", VTuple [VInt 256; VInt 256]);
                              ("policy_obs_key", VStr "state");
                              ("value_obs_key", VStr "privileged_state") ]) ]).
Proof. reflexivity. Qed.

(** C7, as the code has it: on parameters without a [network_factory]
    sub-tree no sub-tree is ever created; without nested flags the resolution
    is that of the top-level overrides; with a nested flag supplied it raises
    instead of dropping the override, and with only that flag supplied the
    exception is the [AttributeError] of reading [network_factory] (after the
    right-hand side has been evaluated). *)
Theorem C7_nested_override_needs_subtree :
  forall (check_write : ConfigDict -> string -> value -> Exc value)
         (F : Flags) (base : ConfigDict),
    get "network_factory" base = None ->
    (nested_supplied (overrides F) = false ->
       resolve_config check_write F (Tree base)
       = apply_overrides check_write (top_level_only (overrides F)) (Tree base))
    /\ (nested_supplied (overrides F) = true ->
          exists e, resolve_config check_write F (Tree base) = Raise e)
    /\ (forall resolved,
          resolve_config check_write F (Tree base) = Return resolved ->
          nested_supplied (overrides F) = false
          /\ lookup "network_factory" resolved = None)
    /\ (forall n, In n nested_flags -> supplied_flags (overrides F) = [n] ->
          exists o,
            In o (overrides F) /\ flag o = n
            /\ resolve_config check_write F (Tree base)
               = (_ <~ rhs o ;; Raise (AttributeError "network_factory"))).
Proof.
  intros cw F base Hnf.
  pose proof (overrides_keep_subtree_key F) as Hkeep.
  pose proof (nested_entry F) as Hnest.
  rewrite !resolve_config_eq.
  generalize dependent (overrides F). intros os Hkeep Hnest.
  pose proof (resolve_single cw os (Tree base)) as Hsingle.
  assert (Hraise : nested_supplied os = true ->
                   exists e, apply_overrides cw os (Tree base) = Raise e).
  { intros Hn. apply apply_overrides_nested_raises; assumption. }
  split; [|split; [exact Hraise|split]].
  - intros Hn. apply apply_overrides_top_level_only. exact Hn.
  - intros resolved Hr.
    destruct (nested_supplied os) eqn:Hn.
    + destruct (Hraise eq_refl) as [e He]. rewrite He in Hr. discriminate Hr.
    + split; [reflexivity|].
      rewrite (apply_overrides_frame cw os _ _ "network_factory" Hr); [exact Hnf|].
      apply no_nested_no_subtree_key; assumption.
  - intros n Hn Hs.
    destruct (Hsingle _ Hs) as (o & Hin & Hf & Hsup & Ef & Hres).
    pose proof (Hnest o n Hn Hin Hf) as Ht.
    exists o. split; [exact Hin|]. split; [exact Hf|].
    rewrite Hres. unfold apply_override. rewrite Hsup, Ht.
    destruct (rhs o) as [e|v]; cbn [ebind]; [reflexivity|].
    apply rl_setnested_missing. exact Hnf.
Qed.

(** [--policy_obs_key=privileged_state] on parameters without the sub-tree. *)
Lemma C7_witness_policy_obs_key :
  let F := with_params (supply_policy_obs_key "privileged_state" param_defaults) in
  get "network_factory" flat_rl_config = None
  /\ nested_supplied (overrides F) = true
  /\ exists e, resolve_config unchecked F (Tree flat_rl_config) = Raise e.
Proof.
  split; [reflexivity|]. split; [reflexivity|].
  apply (proj1 (proj2
           (C7_nested_override_needs_subtree unchecked
              (with_params (supply_policy_obs_key "privileged_state" param_defaults))
              flat_rl_config eq_refl))).
  reflexivity.
Defined.

(** C7 as stated fails there: the supplied nested override is not dropped,
    the resolution raises. *)
Lemma C7_counterexample_policy_obs_key :
  let F := with_params (supply_policy_obs_key "privileged_state" param_defaults) in
  resolve_config unchecked F (Tree flat_rl_config)
  = Raise (AttributeError "network_factory")
  /\ apply_overrides unchecked (top_level_only (overrides F)) (Tree flat_rl_config)
     = Return (Tree flat_rl_config)
  /\ resolve_config unchecked F (Tree flat_rl_config)
     <> apply_overrides unchecked (top_level_only (overrides F)) (Tree flat_rl_config).
Proof. repeat split. discriminate. Qed.

End ConfigFacts.

(* ===================================================================== *)
(** * The driver *)
(* ===================================================================== *)

Module MainFacts.
Import Py Config World TrainJaxPpo PyFacts ConfigFacts CheckpointFacts RegistryFacts.
Local Open Scope py_scope.

(** Stand-ins for [locomotion_params.brax_ppo_config] and
    [brax_fql_config]. *)
Definition sample_brax_config (env_name impl : string) : Exc ConfigDict :=
  Return sample_rl_config.

(** The suite with one more environment, registered without a randomizer
    (register_environment has no way to give one). *)
Definition custom_tables : Locomotion.Tables :=
  Locomotion.register_environment "Custom" (UserEnv "CustomEnv") sample_config
    sample_tables.

(** ** Events of a sequence *)

Lemma events_bind {A B : Type} (m : M A) (f : A -> M B) :
  events (bind m f)
  = events m ++ match outcome m with
                | inr a => events (f a)
                | inl _ => []
                end.
Proof.
  destruct m as [t [e|a]]; simpl.
  - now rewrite app_nil_r.
  - now destruct (f a).
Qed.

Lemma outcome_bind {A B : Type} (m : M A) (f : A -> M B) :
  outcome (bind m f)
  = match outcome m with
    | inr a => outcome (f a)
    | inl e => inl e
    end.
Proof.
  destruct m as [t [e|a]]; simpl; [reflexivity|]. now destruct (f a).
Qed.

Lemma in_events_bind {A B : Type} (m : M A) (f : A -> M B) (ev : Event) :
  In ev (events (bind m f))
  <-> In ev (events m)
      \/ exists a, outcome m = Return a /\ In ev (events (f a)).
Proof.
  rewrite events_bind, in_app_iff. split; intros [H|H]; auto.
  - destruct (outcome m) as [e|a]; [contradiction|]. right. now exists a.
  - destruct H as (a & Ha & H). rewrite Ha. now right.
Qed.

Lemma outcome_bind_Return {A B : Type} (m : M A) (f : A -> M B) (b : B) :
  outcome (bind m f) = Return b ->
  exists a, outcome m = Return a /\ outcome (f a) = Return b.
Proof.
  rewrite outcome_bind. destruct (outcome m) as [e|a]; [discriminate|].
  intros H. now exists a.
Qed.

Section Run.
Variable check_write : ConfigDict -> string -> value -> Exc value.
Variable brax_ppo_config : string -> string -> Exc ConfigDict.
Variable brax_fql_config : string -> string -> Exc ConfigDict.

Abbreviation run_main := (main check_write brax_ppo_config brax_fql_config).

(** An environment name outside the suite ends the run at its first
    statement: nothing has happened yet. *)
Lemma unknown_env_stops_first (R : Registry.State) (H : Host) (F : Flags) :
  mem (Absl.value (_ENV_NAME (run F)))
      (Locomotion._envs (Registry.locomotion R)) = false ->
  run_main R H F
  = ([], Raise (ValueError ("Env '" ++ Absl.value (_ENV_NAME (run F))
                            ++ "' not found in default configs."))).
Proof.
  intros Hm. unfold main. rewrite (unknown_env_message R _ Hm). reflexivity.
Qed.

(** An agent that is neither ppo nor fql does not raise: line 177 returns
    the exception object. *)
Lemma unknown_agent_is_returned (R : Registry.State) (impl env_name agent : string) :
  mem env_name (Locomotion._envs (Registry.locomotion R)) = true ->
  String.eqb (lower agent) "ppo" = false ->
  String.eqb (lower agent) "fql" = false ->
  get_rl_config brax_ppo_config brax_fql_config R impl env_name agent
  = Return (Instance (ValueError "Invalid agent name.") []).
Proof. intros Hm Hp Hf. unfold get_rl_config. now rewrite Hm, Hp, Hf. Qed.

(** ** Where the trainer can be called *)

Definition is_train_call (ev : Event) : bool :=
  match ev with
  | Call callee _ => String.eqb callee "ppo.train"
  | _ => false
  end.

(** No call of the trainer among the events. *)
Definition quiet (t : list Event) : Prop :=
  forall ev, In ev t -> is_train_call ev = false.

Lemma quiet_nil : quiet [].
Proof. intros ev []. Qed.

Lemma quiet_cons ev t : is_train_call ev = false -> quiet t -> quiet (ev :: t).
Proof. intros He Ht x [<-|Hx]; auto. Qed.

Lemma quiet_bind {A B : Type} (m : M A) (f : A -> M B) :
  quiet (events m) -> (forall a, quiet (events (f a))) -> quiet (events (bind m f)).
Proof.
  intros Hm Hf ev Hin. apply in_events_bind in Hin.
  destruct Hin as [Hin|(a & _ & Hin)]; [now apply Hm | now apply (Hf a)].
Qed.

Lemma quiet_lift {A : Type} (x : Exc A) : quiet (events (lift x)).
Proof. exact quiet_nil. Qed.

Lemma quiet_load R env_name config ov : quiet (events (Registry.load R env_name config ov)).
Proof.
  unfold Registry.load.
  destruct (elem env_name _); [|exact quiet_nil].
  unfold Locomotion.load.
  apply quiet_bind; [apply quiet_cons; [reflexivity | exact quiet_nil]|]. intros _.
  destruct (get env_name _) as [cls|]; [|exact quiet_nil].
  apply quiet_bind; [apply quiet_lift|]. intros c.
  unfold Locomotion.construct.
  apply quiet_bind; [apply quiet_cons; [reflexivity | exact quiet_nil]|]. intros _.
  exact quiet_nil.
Qed.

Lemma quiet_restore (H : Host) p : quiet (events (restore_checkpoint_path H p)).
Proof.
  unfold restore_checkpoint_path.
  destruct p as [p|].
  - destruct (is_dir H (resolve H p)).
    + apply quiet_bind; [apply quiet_lift|]. intros l.
      apply quiet_bind; [apply quiet_lift|]. intros x.
      apply quiet_bind; [apply quiet_cons; [reflexivity | exact quiet_nil]|]. intros _.
      exact quiet_nil.
    + apply quiet_bind; [apply quiet_cons; [reflexivity | exact quiet_nil]|]. intros _.
      exact quiet_nil.
  - apply quiet_bind; [apply quiet_cons; [reflexivity | exact quiet_nil]|]. intros _.
    exact quiet_nil.
Qed.

Lemma quiet_get_domain_randomizer R env_name :
  quiet (events (Registry.get_domain_randomizer R env_name)).
Proof.
  unfold Registry.get_domain_randomizer, Locomotion.get_domain_randomizer.
  destruct (elem env_name _); [|exact quiet_nil].
  destruct (get env_name _); [exact quiet_nil|].
  apply quiet_bind; [apply quiet_cons; [reflexivity | exact quiet_nil]|]. intros _.
  exact quiet_nil.
Qed.

Lemma quiet_bind_randomizer R F tp : quiet (events (bind_randomizer R F tp)).
Proof.
  unfold bind_randomizer. destruct (Absl.value _); [|exact quiet_nil].
  apply quiet_bind; [apply quiet_get_domain_randomizer|]. intros r. exact quiet_nil.
Qed.

Lemma quiet_rscope R F env_cfg rl tp : quiet (events (rscope R F env_cfg rl tp)).
Proof.
  unfold rscope. destruct (Absl.value (_RSCOPE_ENVS (run F))) as [n|]; [|exact quiet_nil].
  destruct (n =? 0)%Z; [exact quiet_nil|].
  apply quiet_bind; [apply quiet_load|]. intros e.
  apply quiet_bind; [apply quiet_lift|]. intros el.
  apply quiet_bind; [apply quiet_lift|]. intros ar.
  apply quiet_bind; [apply quiet_cons; [reflexivity | exact quiet_nil]|]. intros _.
  apply quiet_bind; [apply quiet_cons; [reflexivity | exact quiet_nil]|]. intros _.
  exact quiet_nil.
Qed.

(** ** Keyword arguments *)

Lemma get_app_l {V : Type} (k : string) (v : V) (d d' : dict V) :
  get k d = Some v -> get k (d ++ d') = Some v.
Proof.
  induction d as [|[k0 v0] r IH]; simpl; [discriminate|].
  destruct (String.eqb k k0); auto.
Qed.


(** ** The randomizer *)




(** ** The call of the trainer *)

Ltac hush Hin :=
  exfalso;
  first
    [ solve [ apply quiet_lift in Hin; discriminate Hin ]
    | solve [ apply quiet_load in Hin; discriminate Hin ]
    | solve [ apply quiet_restore in Hin; discriminate Hin ]
    | solve [ apply quiet_bind_randomizer in Hin; discriminate Hin ]
    | solve [ apply quiet_rscope in Hin; discriminate Hin ]
    | solve [ match type of Hin with
              | context [if ?c then _ else _] => destruct c
              end;
              simpl in Hin; intuition discriminate ]
    | solve [ simpl in Hin; intuition discriminate ] ].

Ltac peel Hin :=
  let a := fresh "a" in
  let Ha := fresh "Ha" in
  apply in_events_bind in Hin;
  destruct Hin as [Hin | (a & Ha & Hin)]; [ hush Hin | cbv beta zeta in Hin ].


End Run.

(** C5 at [--agent=sac]: the run does not stop at the unknown agent.  It
    constructs the environment, creates the log directory and the checkpoint
    directory, writes the configuration file, and only then fails, with the
    [TypeError] of [dict(rl_params)]. *)
Theorem C5_unknown_agent_creates_log_directory :
  let F := with_run (supply_agent "sac" run_defaults) in
  let R := Registry.imported sample_tables in
  let r := main unchecked sample_brax_config sample_brax_config R (host_listing []) F in
  get_rl_config sample_brax_config sample_brax_config R "jax" "G1JoystickFlatTerrain" "sac"
  = Return (Instance (ValueError "Invalid agent name.") [])
  /\ outcome r = Raise (TypeError "'ValueError' object is not iterable")
  /\ filter (fun ev => match ev with Mkdir _ | WriteJson _ _ => true | _ => false end)
            (events r)
     = [ Mkdir ["logs"; "G1JoystickFlatTerrain-20250101-000000"];
         Mkdir ["logs"; "G1JoystickFlatTerrain-20250101-000000"; "checkpoints"];
         WriteJson ["logs"; "G1JoystickFlatTerrain-20250101-000000"; "checkpoints";
                    "config.json"]
                   (VConfig [ ("ctrl_dt", VFloat 0.02%float);
                              ("episode_length", VInt 1000);
                              ("impl", VStr "jax") ]) ].
Proof. repeat split. Qed.

(** The other half of C5 holds: an unknown environment stops the run before
    any effect. *)
Example unknown_env_run :
  main unchecked sample_brax_config sample_brax_config
       (Registry.imported sample_tables) (host_listing [])
       (with_run (supply_env_name "DoesNotExist" run_defaults))
  = ([], Raise (ValueError "Env 'DoesNotExist' not found in default configs.")).
Proof. reflexivity. Qed.

(** Outside the suite the lookup is silent: no notice is printed. *)
Lemma unregistered_env_has_no_notice (R : Registry.State) (env_name : string) :
  elem env_name (Locomotion.ALL_ENVS (Registry.locomotion R)) = false ->
  Registry.get_domain_randomizer R env_name = ([], Return None).
Proof. intros He. unfold Registry.get_domain_randomizer. now rewrite He. Qed.


(** A run on the environment registered without a randomizer, with
    [--domain_randomization]. *)
Definition custom_run : Flags :=
  with_run (supply_env_name "Custom" (supply_domain_randomization true run_defaults)).


(** That run does reach the trainer. *)
Example custom_run_trains :
  let r := main unchecked sample_brax_config sample_brax_config
             (Registry.imported custom_tables) (host_listing []) custom_run in
  outcome r = Return tt
  /\ map (fun ev => match ev with
                    | Call "ppo.train" kwargs => get "randomization_fn" kwargs
                    | _ => None
                    end)
         (filter is_train_call (events r))
     = [Some (AVal VNone)]
  /\ existsb (fun ev => match ev with
                        | Print [Text s] =>
                            String.eqb s (Locomotion.no_randomizer_notice "Custom")
                        | _ => false
                        end) (events r) = true.
Proof. repeat split. Qed.

End MainFacts.

(* ===================================================================== *)
(** * The rollout recorder *)
(* ===================================================================== *)

Module RolloutFacts.
Import Py Config World TrainJaxPpo PyFacts.
Local Open Scope py_scope.

(** ** Unstacking *)







Section Recorder.
Variable array : Type.
Variable key : Type.
Variable action : Type.
Variable PRNGKey : Z -> key.
Variable subkey : key -> nat -> nat -> key.
Variable reset : key -> State array.
Variable env_step : State array -> action -> State array.
Variable jit_inference_fn : option array -> key -> action.

Abbreviation rollout :=
  (do_rollout array key action subkey env_step jit_inference_fn).


Lemma scan_length f (carry : State array * key) (n : nat) :
  List.length (scan array key f carry n) = n.
Proof.
  revert carry. induction n as [|n IH]; intros carry; simpl; [reflexivity|].
  destruct (f carry) as [carry' y]. simpl. now rewrite IH.
Qed.


(** What a step records: the seven fields of the new state, nothing else. *)
Lemma step_snapshot (empty : State array) (carry : State array * key) :
  let state' := fst (fst (step array key action subkey env_step jit_inference_fn
                            empty carry)) in
  snd (step array key action subkey env_step jit_inference_fn empty carry)
  = tree_replace array empty (data array state').
Proof. destruct carry as [state rng]. reflexivity. Qed.




End Recorder.


(** Three videos of fifty steps, on a toy environment whose state counts the
    steps taken. *)
Example three_rollouts_of_fifty :
  let count (s : State nat) : nat :=
    match qpos nat (data nat s) with Some n => n | None => 0 end in
  let fresh (k : nat) : State nat :=
    {| data := {| qpos := Some 0; qvel := Some k; time := Some 0; ctrl := None;
                  mocap_pos := None; mocap_quat := None; xfrc_applied := None;
                  data_rest := [("contact", Some 7)] |};
       state_rest := [("obs", Some k); ("reward", Some 1)] |} in
  let advance (s : State nat) (a : unit) : State nat :=
    {| data := {| qpos := Some (S (count s)); qvel := qvel nat (data nat s);
                  time := Some (S (count s)); ctrl := Some 1;
                  mocap_pos := None; mocap_quat := None; xfrc_applied := None;
                  data_rest := data_rest nat (data nat s) |};
       state_rest := state_rest nat s |} in
  match record_rollouts nat nat unit (fun seed => Z.to_nat seed)
          (fun k num i => k + i) fresh advance (fun _ _ => tt) 1 3 50 with
  | inr trajectories =>
      List.length trajectories = 3
      /\ map (@List.length _) trajectories = [50; 50; 50]
      /\ map (fun t => map (fun s => qpos nat (data nat s)) (firstn 3 t)) trajectories
         = repeat [Some 1; Some 2; Some 3] 3
      /\ map (fun t => map (fun s => (data_rest nat (data nat s), state_rest nat s))
                           (firstn 1 t)) trajectories
         = repeat [([("contact", None)], [("obs", None); ("reward", None)])] 3
  | inl _ => False
  end.
Proof. vm_compute. repeat split. Qed.

End RolloutFacts.

(* ===================================================================== *)
(** * Registering environments *)
(* ===================================================================== *)

Module RegistryProps.
Import Py Config World PyFacts RegistryFacts.
Local Open Scope py_scope.

(** The tables after a sequence of registrations on top of the initial
    ones. *)
Inductive reachable (g1_default_config : ConfigDict) : Locomotion.Tables -> Prop :=
| reach_initial : reachable g1_default_config (Locomotion.initial g1_default_config)
| reach_register T env_name env_class cfg_class :
    reachable g1_default_config T ->
    reachable g1_default_config
      (Locomotion.register_environment env_name env_class cfg_class T).

(** The registry module over given tables, whatever its import-time tuple. *)
Definition registry_over (T : Locomotion.Tables) (snapshot : list string)
  : Registry.State :=
  {| Registry.locomotion := T; Registry.ALL_ENVS := snapshot |}.

Lemma keys_set {V : Type} (k : string) (v : V) (d : dict V) :
  keys (set k v d) = if mem k d then keys d else keys d ++ [k].
Proof.
  unfold mem, keys. induction d as [|[k0 v0] r IH]; simpl; [reflexivity|].
  destruct (String.eqb k k0) eqn:E; simpl.
  - apply String.eqb_eq in E. now subst.
  - rewrite IH. now destruct (get k r).
Qed.

Lemma reachable_aligned g1 T : reachable g1 T -> aligned T.
Proof.
  induction 1; [apply initial_aligned | now apply register_aligned].
Qed.

Lemma reachable_randomizer g1 T :
  reachable g1 T ->
  Locomotion._randomizer T = Locomotion._randomizer (Locomotion.initial g1).
Proof. induction 1; [reflexivity | assumption]. Qed.

Lemma reachable_keeps_names g1 T n :
  reachable g1 T ->
  mem n (Locomotion._envs (Locomotion.initial g1)) = true ->
  mem n (Locomotion._envs T) = true.
Proof.
  induction 1; intros Hn; [assumption|].
  simpl. rewrite mem_set. rewrite IHreachable by assumption. apply orb_true_r.
Qed.

(** Registration followed by lookup: the name resolves to what was
    registered, in the suite and through the top-level registry, whose
    import-time tuple plays no part; other names resolve as before. *)
Theorem register_then_load :
  forall (T : Locomotion.Tables) (snapshot : list string)
         (env_name : string) (env_class : EnvClass) (cfg_class : ConfigDict)
         (config_overrides : option (dict value)),
    let T' := Locomotion.register_environment env_name env_class cfg_class T in
    let R' := registry_over T' snapshot in
    Locomotion.get_default_config T' env_name = Return cfg_class
    /\ Registry.get_default_config R' env_name = Return cfg_class
    /\ Registry.load R' env_name None config_overrides
       = ([ Call "mjx_env.ensure_menagerie_exists" [];
            Construct {| env_class := env_class; env_config := cfg_class;
                         env_config_overrides := config_overrides |} ],
          Return {| env_class := env_class; env_config := cfg_class;
                    env_config_overrides := config_overrides |})
    /\ (forall other, other <> env_name ->
          get other (Locomotion._envs T') = get other (Locomotion._envs T)
          /\ get other (Locomotion._cfgs T') = get other (Locomotion._cfgs T)
          /\ get other (Locomotion._randomizer T')
             = get other (Locomotion._randomizer T)).
Proof.
  intros T snapshot n cls cfg ov T' R'.
  assert (Hc : Locomotion.get_default_config T' n = Return cfg).
  { unfold Locomotion.get_default_config, T'. simpl. now rewrite get_set_same. }
  assert (He : elem n (Locomotion.ALL_ENVS T') = true).
  { unfold Locomotion.ALL_ENVS. rewrite elem_keys_mem. unfold T'. simpl.
    unfold mem. now rewrite get_set_same. }
  split; [exact Hc|]. split; [|split].
  - unfold Registry.get_default_config. simpl. now rewrite He.
  - unfold Registry.load. simpl. rewrite He. unfold Locomotion.load.
    replace (get n (Locomotion._envs T')) with (Some cls)
      by (unfold T'; simpl; now rewrite get_set_same).
    rewrite Hc. reflexivity.
  - intros other Hne. unfold T'. simpl.
    rewrite !get_set_other by assumption. repeat split.
Qed.

(** Registration keeps the listing order: a name already present stays where
    it is, a new name goes to the end. *)
Theorem register_keeps_order :
  forall (T : Locomotion.Tables) (env_name : string) (env_class : EnvClass)
         (cfg_class : ConfigDict),
    Locomotion.ALL_ENVS (Locomotion.register_environment env_name env_class cfg_class T)
    = if mem env_name (Locomotion._envs T)
      then Locomotion.ALL_ENVS T
      else Locomotion.ALL_ENVS T ++ [env_name].
Proof. intros. unfold Locomotion.ALL_ENVS. simpl. apply keys_set. Qed.

(** After any registrations the two dictionaries share their keys, so the
    top-level lookup succeeds exactly on the registered names, never reaches
    the error of the suite, and fails with its own message otherwise. *)
Theorem registered_names_have_configs :
  forall (g1_default_config : ConfigDict) (T : Locomotion.Tables)
         (snapshot : list string) (env_name : string),
    reachable g1_default_config T ->
    Registry.get_default_config (registry_over T snapshot) env_name
    = match get env_name (Locomotion._cfgs T) with
      | Some cfg => Return cfg
      | None => Raise (ValueError ("Env '" ++ env_name
                                   ++ "' not found in default configs."))
      end
    /\ (mem env_name (Locomotion._envs T) = true <->
        exists cfg, Registry.get_default_config (registry_over T snapshot) env_name
                    = Return cfg).
Proof.
  intros g1 T snapshot n Hr.
  pose proof (reachable_aligned g1 T Hr n) as Ha.
  assert (E : Registry.get_default_config (registry_over T snapshot) n
              = match get n (Locomotion._cfgs T) with
                | Some cfg => Return cfg
                | None => Raise (ValueError ("Env '" ++ n
                                             ++ "' not found in default configs."))
                end).
  { unfold Registry.get_default_config, Locomotion.ALL_ENVS. simpl.
    rewrite elem_keys_mem, Ha. unfold mem, Locomotion.get_default_config.
    now destruct (get n (Locomotion._cfgs T)). }
  split; [exact E|]. rewrite E, Ha. unfold mem.
  destruct (get n (Locomotion._cfgs T)) as [cfg|]; split.
  - intros _. now exists cfg.
  - reflexivity.
  - discriminate.
  - intros [cfg Hc]. discriminate Hc.
Qed.

Lemma registered_names_witness :
  Registry.get_default_config
    (registry_over (Locomotion.register_environment "Custom" (UserEnv "CustomEnv")
                      sample_config sample_tables) [])
    "Custom"
  = Return sample_config.
Proof.
  pose proof (registered_names_have_configs sample_config
                (Locomotion.register_environment "Custom" (UserEnv "CustomEnv")
                   sample_config sample_tables) [] "Custom"
                (reach_register _ _ _ _ _ (reach_initial _))) as [E _].
  exact E.
Defined.

(** Registration never provides a randomizer: after any registrations only
    the two G1 environments have one, and every other registered environment
    gets the notice and [None]. *)
Theorem registered_environments_lack_randomizer :
  forall (g1_default_config : ConfigDict) (T : Locomotion.Tables)
         (snapshot : list string) (env_name : string),
    reachable g1_default_config T ->
    mem env_name (Locomotion._envs T) = true ->
    Registry.get_domain_randomizer (registry_over T snapshot) env_name
    = if String.eqb env_name "G1JoystickFlatTerrain"
         || String.eqb env_name "G1JoystickRoughTerrain"
      then ([], Return (Some "g1_randomize.domain_randomize"))
      else ([Print [Text (Locomotion.no_randomizer_notice env_name)]], Return None).
Proof.
  intros g1 T snapshot n Hr Hm.
  unfold Registry.get_domain_randomizer, Locomotion.ALL_ENVS. simpl.
  rewrite elem_keys_mem, Hm.
  unfold Locomotion.get_domain_randomizer.
  rewrite (reachable_randomizer g1 T Hr). simpl.
  destruct (String.eqb n "G1JoystickFlatTerrain"); [reflexivity|].
  destruct (String.eqb n "G1JoystickRoughTerrain"); reflexivity.
Qed.

Lemma lack_randomizer_witness :
  Registry.get_domain_randomizer
    (registry_over (Locomotion.register_environment "Custom" (UserEnv "CustomEnv")
                      sample_config sample_tables) [])
    "Custom"
  = ([Print [Text (Locomotion.no_randomizer_notice "Custom")]], Return None).
Proof.
  exact (registered_environments_lack_randomizer sample_config
           (Locomotion.register_environment "Custom" (UserEnv "CustomEnv")
              sample_config sample_tables) [] "Custom"
           (reach_register _ _ _ _ _ (reach_initial _)) eq_refl).
Defined.

(** An unknown name: the top-level [load] raises before anything happens,
    naming the environments of import time; the suite's [load] has already
    run the asset check when it raises. *)
Theorem load_of_unknown_name :
  forall (R : Registry.State) (env_name : string) (config : option ConfigDict)
         (config_overrides : option (dict value)),
    mem env_name (Locomotion._envs (Registry.locomotion R)) = false ->
    Registry.load R env_name config config_overrides
    = ([], Raise (ValueError ("Env '" ++ env_name ++ "' not found. Available envs: "
                              ++ repr_tuple (Registry.ALL_ENVS R))))
    /\ Locomotion.load (Registry.locomotion R) env_name config config_overrides
       = ([Call "mjx_env.ensure_menagerie_exists" []],
          Raise (ValueError ("Env '" ++ env_name ++ "' not found. Available envs: "
                             ++ "dict_keys("
                             ++ repr_list (keys (Locomotion._cfgs (Registry.locomotion R)))
                             ++ ")"))).
Proof.
  intros R n c ov Hm. split.
  - unfold Registry.load, Locomotion.ALL_ENVS. now rewrite elem_keys_mem, Hm.
  - unfold Locomotion.load. apply mem_false_iff in Hm. now rewrite Hm.
Qed.

Lemma load_of_unknown_name_witness :
  Registry.load (Registry.imported sample_tables) "DoesNotExist" None None
  = ([], Raise (ValueError
                  ("Env 'DoesNotExist' not found. Available envs: "
                   ++ "('G1JoystickFlatTerrain', 'G1JoystickRoughTerrain')")))
  /\ Locomotion.load sample_tables "DoesNotExist" None None
     = ([Call "mjx_env.ensure_menagerie_exists" []],
        Raise (ValueError
                 ("Env 'DoesNotExist' not found. Available envs: "
                  ++ "dict_keys(['G1JoystickFlatTerrain', 'G1JoystickRoughTerrain'])"))).
Proof.
  exact (load_of_unknown_name (Registry.imported sample_tables) "DoesNotExist"
           None None eq_refl).
Defined.

End RegistryProps.

(* ===================================================================== *)
(** * More on checkpoint resolution *)
(* ===================================================================== *)

Module CheckpointProps.
Import Py Config World TrainJaxPpo PyFacts CheckpointFacts.
Local Open Scope py_scope.

(** The element an ascending stable sort leaves last: among the elements
    with the greatest key, the one that comes last in the list. *)
Fixpoint latest {A : Type} (l : list (Z * A)) : option (Z * A) :=
  match l with
  | [] => None
  | x :: r =>
      match latest r with
      | None => Some x
      | Some y => if (fst x <=? fst y)%Z then Some y else Some x
      end
  end.

Section Latest.
Context {A : Type}.
Implicit Types (x y m : Z * A) (l s : list (Z * A)).

Lemma last_item_cons x y l : last_item (x :: y :: l) = last_item (y :: l).
Proof. reflexivity. Qed.

Lemma last_item_In l m : last_item l = Return m -> In m l.
Proof.
  induction l as [|x [|y r] IH]; simpl.
  - discriminate.
  - intros E. inversion E. now left.
  - intros E. right. now apply IH.
Qed.

Lemma insert_cons x y l :
  insert x (y :: l) = if (fst x <=? fst y)%Z then x :: y :: l else y :: insert x l.
Proof. reflexivity. Qed.

Lemma last_item_insert x s m :
  ascending s -> last_item s = Return m ->
  last_item (insert x s) = Return (if (fst x <=? fst m)%Z then m else x).
Proof.
  induction 1 as [|y r Hy Hr IH]; [discriminate|].
  destruct r as [|y' r'].
  - intros E. inversion E; subst m. simpl.
    destruct (fst x <=? fst y)%Z; reflexivity.
  - rewrite last_item_cons. intros E. specialize (IH E).
    assert (Hym : (fst y <= fst m)%Z).
    { rewrite Forall_forall in Hy. apply (Hy m). now apply last_item_In. }
    rewrite insert_cons. destruct (Z.leb_spec (fst x) (fst y)) as [Hle|Hgt].
    + rewrite !last_item_cons, E.
      destruct (Z.leb_spec (fst x) (fst m)); [reflexivity | lia].
    + remember (insert x (y' :: r')) as t eqn:Et.
      destruct t as [|z t'].
      * exfalso. pose proof (insert_perm x (y' :: r')) as P. rewrite <- Et in P.
        apply Permutation_nil in P. discriminate.
      * rewrite last_item_cons. exact IH.
Qed.

Lemma last_item_sort l :
  last_item (sort l)
  = match latest l with
    | Some m => Return m
    | None => Raise (IndexError "list index out of range")
    end.
Proof.
  induction l as [|x r IH]; [reflexivity|].
  cbn [sort fold_right latest]. fold (sort r).
  destruct (latest r) as [m|].
  - rewrite (last_item_insert x (sort r) m (sort_ascending r) IH).
    destruct (fst x <=? fst m)%Z; reflexivity.
  - apply last_item_nil_iff in IH. rewrite IH. reflexivity.
Qed.

(** [latest] splits the list around its choice: nothing before has a
    greater key, everything after has a smaller one. *)
Lemma latest_split l m :
  latest l = Some m ->
  exists before after,
    l = before ++ m :: after
    /\ Forall (fun y => (fst y <= fst m)%Z) before
    /\ Forall (fun y => (fst y < fst m)%Z) after.
Proof.
  revert m. induction l as [|x r IH]; intros m; simpl; [discriminate|].
  destruct (latest r) as [y|] eqn:Er.
  - destruct (IH y eq_refl) as (b & a & -> & Hb & Ha).
    destruct (Z.leb_spec (fst x) (fst y)) as [Hle|Hgt]; intros E; inversion E; subst m.
    + exists (x :: b), a. repeat split; auto.
    + exists [], (b ++ y :: a). repeat split; auto.
      apply Forall_app. split.
      * eapply Forall_impl; [|exact Hb]. intros z Hz. simpl in Hz. lia.
      * constructor; [lia|].
        eapply Forall_impl; [|exact Ha]. intros z Hz. simpl in Hz. lia.
  - intros E. inversion E; subst m.
    destruct r as [|z r']; [|simpl in Er; destruct (latest r'); [destruct (fst z <=? fst p)%Z|]; discriminate].
    exists [], []. repeat split; constructor.
Qed.

End Latest.

(** Among subdirectories whose names denote the same greatest integer (10 and
    010, say) the one listed last is restored: every subdirectory listed after
    the restored one has a strictly smaller number. *)
Theorem equal_steps_last_listed_wins :
  forall (H : Host) (p : string),
    is_dir H (resolve H p) = true ->
    subdirectories H (resolve H p) <> [] ->
    Forall (fun d => parse_int (name d) <> None) (subdirectories H (resolve H p)) ->
    exists before best after n,
      subdirectories H (resolve H p) = before ++ best :: after
      /\ outcome (restore_checkpoint_path H (Some p)) = Return (Some best)
      /\ parse_int (name best) = Some n
      /\ (forall d m, In d before -> parse_int (name d) = Some m -> (m <= n)%Z)
      /\ (forall d m, In d after -> parse_int (name d) = Some m -> (m < n)%Z).
Proof.
  intros H p Hdir Hne Hall.
  destruct (keyed_ok (fun x => int (name x)) (subdirectories H (resolve H p)))
    as (kl & Hk & Hs & Hf).
  { eapply Forall_impl; [|exact Hall]. intros d Hd. simpl in Hd.
    destruct (parse_int (name d)) as [z|] eqn:E; [|congruence].
    exists z. now apply int_Return_iff. }
  pose proof (last_item_sort kl) as Hlast.
  destruct (latest kl) as [[n best]|] eqn:El.
  - destruct (latest_split kl (n, best) El) as (kb & ka & Ekl & Hb & Ha).
    exists (map snd kb), best, (map snd ka), n.
    rewrite Forall_forall in Hf.
    assert (Hkey : forall y, In y kl -> parse_int (name (snd y)) = Some (fst y)).
    { intros y Hy. apply int_Return_iff. exact (Hf y Hy). }
    split; [|split; [|split; [|split]]].
    + rewrite <- Hs, Ekl, map_app. reflexivity.
    + rewrite restore_from_directory by assumption.
      unfold sort_by. rewrite Hk. simpl.
      rewrite (last_item_map snd _ _ Hlast). reflexivity.
    + apply (Hkey (n, best)). rewrite Ekl. apply in_or_app. right. now left.
    + intros d m Hd Hm. apply in_map_iff in Hd. destruct Hd as (y & <- & Hy).
      rewrite (Hkey y) in Hm by (rewrite Ekl; apply in_or_app; now left).
      inversion Hm; subst m. rewrite Forall_forall in Hb. exact (Hb y Hy).
    + intros d m Hd Hm. apply in_map_iff in Hd. destruct Hd as (y & <- & Hy).
      rewrite (Hkey y) in Hm by (rewrite Ekl; apply in_or_app; right; now right).
      inversion Hm; subst m. rewrite Forall_forall in Ha. exact (Ha y Hy).
  - exfalso. destruct kl as [|x r]; [simpl in Hs; congruence|].
    simpl in El. destruct (latest r) as [y|]; [destruct (fst x <=? fst y)%Z|]; discriminate.
Qed.

Lemma equal_steps_witness :
  let H := host_listing ["10"; "3"; "010"; "2"] in
  exists before best after n,
    subdirectories H (resolve H "ckpts") = before ++ best :: after
    /\ outcome (restore_checkpoint_path H (Some "ckpts")) = Return (Some best)
    /\ parse_int (name best) = Some n
    /\ (forall d m, In d before -> parse_int (name d) = Some m -> (m <= n)%Z)
    /\ (forall d m, In d after -> parse_int (name d) = Some m -> (m < n)%Z).
Proof.
  apply (equal_steps_last_listed_wins (host_listing ["10"; "3"; "010"; "2"]) "ckpts").
  - reflexivity.
  - discriminate.
  - repeat constructor; discriminate.
Defined.

Example restore_010_after_10 :
  outcome (restore_checkpoint_path (host_listing ["10"; "3"; "010"; "2"]) (Some "ckpts"))
  = Return (Some ["ckpts"; "010"]).
Proof. reflexivity. Qed.



End CheckpointProps.

(* ===================================================================== *)
(** * More on configuration resolution *)
(* ===================================================================== *)

Module ConfigProps.
Import Py Config World TrainJaxPpo PyFacts ConfigFacts.
Local Open Scope py_scope.

(** ** [--play_only] *)

(** The table is its first two entries and a rest that never assigns to
    [num_timesteps]. *)
Lemma overrides_head (F : Flags) :
  overrides F
  = top (_NUM_TIMESTEPS (params F)) "num_timesteps" VInt
    :: {| flag := "play_only";
          supplied := present (_PLAY_ONLY (run F));
          target := Top "num_timesteps";
          rhs := Return (VInt 0) |}
    :: tl (tl (overrides F)).
Proof. reflexivity. Qed.

Lemma overrides_rest_keeps_num_timesteps (F : Flags) :
  Forall (fun o => top_key (target o) <> "num_timesteps") (tl (tl (overrides F))).
Proof.
  unfold overrides. cbn [tl].
  repeat (constructor; [simpl; discriminate|]). constructor.
Qed.

Lemma not_assigned (os : list Override) (k : string) :
  Forall (fun o => top_key (target o) <> k) os -> ~ In k (assigned os).
Proof.
  induction 1 as [|o r Ho Hr IH]; [intros []|].
  unfold assigned. simpl. destruct (supplied o); simpl; [|exact IH].
  intros [E|Hin]; [congruence | now apply IH].
Qed.

Lemma rl_setattr_stored check_write rl k v rl' :
  (forall c, check_write c k v = Return v) ->
  rl_setattr check_write rl k v = Return rl' ->
  lookup k rl' = Some v.
Proof.
  intros Hcw. destruct rl as [c|e attrs]; simpl; intros E.
  - destruct (setattr check_write c k v) as [e|c'] eqn:Es; simpl in E; [discriminate|].
    inversion E; subst rl'. apply setattr_inv in Es. destruct Es as (v' & Hv & ->).
    rewrite Hcw in Hv. inversion Hv; subst v'. simpl. apply get_set_same.
  - inversion E; subst rl'. simpl. apply get_set_same.
Qed.

Lemma ebind_inl {A B : Type} (e : PyExc) (f : A -> Exc B) : ebind (inl e) f = inl e.
Proof. reflexivity. Qed.

Lemma ebind_inr {A B : Type} (a : A) (f : A -> Exc B) : ebind (inr a) f = f a.
Proof. reflexivity. Qed.

(** Whenever [play_only] appears on the command line, with whatever value,
    the resolved [num_timesteps] is 0, a [--num_timesteps] given beside it
    notwithstanding. *)
Theorem play_only_zeroes_num_timesteps :
  forall (check_write : ConfigDict -> string -> value -> Exc value)
         (F : Flags) (rl resolved : RlParams),
    (forall c, check_write c "num_timesteps" (VInt 0) = Return (VInt 0)) ->
    present (_PLAY_ONLY (run F)) = true ->
    resolve_config check_write F rl = Return resolved ->
    lookup "num_timesteps" resolved = Some (VInt 0).
Proof.
  intros cw F rl resolved Hcw Hp Hr.
  rewrite resolve_config_eq, overrides_head in Hr.
  pose proof (overrides_rest_keeps_num_timesteps F) as Hrest.
  generalize dependent (tl (tl (overrides F))). intros rest Hr Hrest.
  cbn [apply_overrides] in Hr.
  destruct (apply_override cw rl (top (_NUM_TIMESTEPS (params F)) "num_timesteps" VInt))
    as [e|rl1]; [rewrite ebind_inl in Hr; discriminate Hr|].
  rewrite ebind_inr in Hr.
  unfold apply_override at 1 in Hr. cbn [supplied target rhs] in Hr.
  rewrite Hp in Hr. unfold Return at 1 in Hr. rewrite ebind_inr in Hr.
  destruct (rl_setattr cw rl1 "num_timesteps" (VInt 0)) as [e|rl2] eqn:E2;
    [rewrite ebind_inl in Hr; discriminate Hr|].
  rewrite ebind_inr in Hr.
  rewrite (apply_overrides_frame cw rest rl2 resolved "num_timesteps" Hr).
  - exact (rl_setattr_stored cw rl1 "num_timesteps" (VInt 0) rl2 Hcw E2).
  - now apply not_assigned.
Qed.

(** [--num_timesteps=5000 --noplay_only]: both present, play_only false. *)
Definition timesteps_and_noplay : Flags :=
  {| run := {| _ENV_NAME := _ENV_NAME run_defaults;
               _AGENT := _AGENT run_defaults;
               _IMPL := _IMPL run_defaults;
               _SUFFIX := _SUFFIX run_defaults;
               _PLAY_ONLY := Absl.given false;
               _USE_WANDB := _USE_WANDB run_defaults;
               _USE_TB := _USE_TB run_defaults;
               _LOAD_CHECKPOINT_PATH := _LOAD_CHECKPOINT_PATH run_defaults;
               _DOMAIN_RANDOMIZATION := _DOMAIN_RANDOMIZATION run_defaults;
               _SEED := _SEED run_defaults;
               _RSCOPE_ENVS := _RSCOPE_ENVS run_defaults;
               _DETERMINISTIC_RSCOPE := _DETERMINISTIC_RSCOPE run_defaults;
               _NUM_VIDEOS := _NUM_VIDEOS run_defaults |};
     params := {| _NUM_TIMESTEPS := Absl.given 5000%Z;
                  _NUM_EVALS := _NUM_EVALS param_defaults;
                  _REWARD_SCALING := _REWARD_SCALING param_defaults;
                  _EPISODE_LENGTH := _EPISODE_LENGTH param_defaults;
                  _NORMALIZE_OBSERVATIONS := _NORMALIZE_OBSERVATIONS param_defaults;
                  _ACTION_REPEAT := _ACTION_REPEAT param_defaults;
                  _UNROLL_LENGTH := _UNROLL_LENGTH param_defaults;
                  _NUM_MINIBATCHES := _NUM_MINIBATCHES param_defaults;
                  _NUM_UPDATES_PER_BATCH := _NUM_UPDATES_PER_BATCH param_defaults;
                  _DISCOUNTING := _DISCOUNTING param_defaults;
                  _LEARNING_RATE := _LEARNING_RATE param_defaults;
                  _ENTROPY_COST := _ENTROPY_COST param_defaults;
                  _NUM_ENVS := _NUM_ENVS param_defaults;
                  _NUM_EVAL_ENVS := _NUM_EVAL_ENVS param_defaults;
                  _BATCH_SIZE := _BATCH_SIZE param_defaults;
                  _MAX_GRAD_NORM := _MAX_GRAD_NORM param_defaults;
                  _CLIPPING_EPSILON := _CLIPPING_EPSILON param_defaults;
                  _POLICY_HIDDEN_LAYER_SIZES := _POLICY_HIDDEN_LAYER_SIZES param_defaults;
                  _VALUE_HIDDEN_LAYER_SIZES := _VALUE_HIDDEN_LAYER_SIZES param_defaults;
                  _POLICY_OBS_KEY := _POLICY_OBS_KEY param_defaults;
                  _VALUE_OBS_KEY := _VALUE_OBS_KEY param_defaults;
                  _RUN_EVALS := _RUN_EVALS param_defaults;
                  _LOG_TRAINING_METRICS := _LOG_TRAINING_METRICS param_defaults;
                  _TRAINING_METRICS_STEPS := _TRAINING_METRICS_STEPS param_defaults |} |}.

Lemma play_only_witness :
  resolve_config unchecked timesteps_and_noplay (Tree sample_rl_config)
  = Return (Tree (set "num_timesteps" (VInt 0) sample_rl_config))
  /\ lookup "num_timesteps" (Tree (set "num_timesteps" (VInt 0) sample_rl_config))
     = Some (VInt 0).
Proof.
  split; [reflexivity|].
  apply (play_only_zeroes_num_timesteps unchecked timesteps_and_noplay
           (Tree sample_rl_config)); reflexivity.
Defined.

(** ** Layer sizes that are not integers *)





End ConfigProps.

(* ===================================================================== *)
(** * Selecting the agent *)
(* ===================================================================== *)

Module AgentProps.
Import Py Config World TrainJaxPpo PyFacts.
Local Open Scope py_scope.

(** The agent names that select PPO, and those that select FQL. *)
Definition ppo_spellings : list string :=
  ["ppo"; "ppO"; "pPo"; "pPO"; "Ppo"; "PpO"; "PPo"; "PPO"].

Definition fql_spellings : list string :=
  ["fql"; "fqL"; "fQl"; "fQL"; "Fql"; "FqL"; "FQl"; "FQL"].

(** A code point that [str.lower] maps to one of the five letters is that
    letter or its capital. *)
Lemma lower_char_letter (c t : ascii) :
  In t ["p"; "o"; "f"; "q"; "l"]%char ->
  lower_char c = t -> c = t \/ c = ascii_of_N (code t - 32).
Proof.
  intros Ht. simpl in Ht.
  destruct Ht as [<-|[<-|[<-|[<-|[<-|[]]]]]];
    destruct c as [[] [] [] [] [] [] [] []]; vm_compute; intros E;
    first [ discriminate E | left; reflexivity | right; reflexivity ].
Qed.

Lemma lower_three (s : string) (a b c : ascii) :
  lower s = String a (String b (String c EmptyString)) ->
  exists x y z,
    s = String x (String y (String z EmptyString))
    /\ lower_char x = a /\ lower_char y = b /\ lower_char z = c.
Proof.
  destruct s as [|x [|y [|z [|w r]]]]; simpl; intros E; try discriminate E.
  inversion E. now exists x, y, z.
Qed.

Lemma lower_is_ppo (agent : string) :
  String.eqb (lower agent) "ppo" = elem agent ppo_spellings.
Proof.
  destruct (elem agent ppo_spellings) eqn:Ee.
  - apply elem_In in Ee. simpl in Ee.
    repeat (destruct Ee as [<-|Ee]; [reflexivity|]). contradiction.
  - destruct (String.eqb_spec (lower agent) "ppo") as [El|]; [|reflexivity].
    apply lower_three in El. destruct El as (x & y & z & -> & Hx & Hy & Hz).
    apply lower_char_letter in Hx; [|simpl; tauto].
    apply lower_char_letter in Hy; [|simpl; tauto].
    apply lower_char_letter in Hz; [|simpl; tauto].
    destruct Hx as [-> | ->], Hy as [-> | ->], Hz as [-> | ->];
      vm_compute in Ee; discriminate Ee.
Qed.

Lemma lower_is_fql (agent : string) :
  String.eqb (lower agent) "fql" = elem agent fql_spellings.
Proof.
  destruct (elem agent fql_spellings) eqn:Ee.
  - apply elem_In in Ee. simpl in Ee.
    repeat (destruct Ee as [<-|Ee]; [reflexivity|]). contradiction.
  - destruct (String.eqb_spec (lower agent) "fql") as [El|]; [|reflexivity].
    apply lower_three in El. destruct El as (x & y & z & -> & Hx & Hy & Hz).
    apply lower_char_letter in Hx; [|simpl; tauto].
    apply lower_char_letter in Hy; [|simpl; tauto].
    apply lower_char_letter in Hz; [|simpl; tauto].
    destruct Hx as [-> | ->], Hy as [-> | ->], Hz as [-> | ->];
      vm_compute in Ee; discriminate Ee.
Qed.

(** For a registered environment the agent name is matched without regard
    to case: the eight spellings of ppo give the PPO parameters, the eight of
    fql the FQL parameters, and every other name gives, without an exception,
    the [ValueError] object. *)
Theorem agent_name_ignores_case :
  forall (brax_ppo_config brax_fql_config : string -> string -> Exc ConfigDict)
         (R : Registry.State) (impl env_name agent : string),
    mem env_name (Locomotion._envs (Registry.locomotion R)) = true ->
    get_rl_config brax_ppo_config brax_fql_config R impl env_name agent
    = if elem agent ppo_spellings then
        c <~ brax_ppo_config env_name impl ;; Return (Tree c)
      else if elem agent fql_spellings then
        c <~ brax_fql_config env_name impl ;; Return (Tree c)
      else Return (Instance (ValueError "Invalid agent name.") []).
Proof.
  intros ppo fql R impl env agent Hm.
  unfold get_rl_config. rewrite Hm, lower_is_ppo, lower_is_fql. reflexivity.
Qed.

Lemma agent_name_witness :
  get_rl_config (fun _ _ => Return []) (fun _ _ => Return [("fql", VBool true)])
    (Registry.imported (Locomotion.initial [])) "jax" "G1JoystickFlatTerrain" "FqL"
  = Return (Tree [("fql", VBool true)]).
Proof.
  exact (agent_name_ignores_case (fun _ _ => Return []) (fun _ _ => Return [("fql", VBool true)])
           (Registry.imported (Locomotion.initial [])) "jax" "G1JoystickFlatTerrain" "FqL"
           eq_refl).
Defined.

End AgentProps.


(* ===================================================================== *)
(** * Reaching the trainer *)
(* ===================================================================== *)

Module MainProps.
Import Py Config World TrainJaxPpo PyFacts ConfigFacts CheckpointFacts RegistryFacts.
Import MainFacts.
Local Open Scope py_scope.

(** The names [main] computes on its way. *)
Definition exp_name (H : Host) (F : Flags) : string :=
  match Absl.value (_SUFFIX (run F)) with
  | Some suffix =>
      ((Absl.value (_ENV_NAME (run F)) ++ "-" ++ timestamp H) ++ "-" ++ suffix)%string
  | None => (Absl.value (_ENV_NAME (run F)) ++ "-" ++ timestamp H)%string
  end.

Definition logdir (H : Host) (F : Flags) : path :=
  child (resolve H "logs") (exp_name H F).

Definition ckpt_dir (H : Host) (F : Flags) : path :=
  child (logdir H F) "checkpoints".

(** The keywords [main] binds itself; a parameter of the same name cannot
    be forwarded. *)
Definition reserved : list string :=
  ["seed"; "restore_checkpoint_path"; "save_checkpoint_path"; "wrap_env_fn"].

Lemma quiet_app (t t' : list Event) : quiet t -> quiet t' -> quiet (t ++ t').
Proof.
  intros Ht Ht' ev Hin. apply in_app_or in Hin. destruct Hin; auto.
Qed.

Lemma quiet_emit (ev : Event) : is_train_call ev = false -> quiet (events (emit ev)).
Proof. intros He. apply quiet_cons; [exact He | exact quiet_nil]. Qed.

(** If the last step of a sequence ends with an event, so does the
    sequence. *)
Lemma last_bind {A B : Type} (m : M A) (f : A -> M B) (a : A)
  (pre : list Event) (ev : Event) :
  outcome m = Return a ->
  events (f a) = pre ++ [ev] ->
  events (bind m f) = (events m ++ pre) ++ [ev].
Proof.
  intros Ha Hf. rewrite events_bind, Ha. unfold Return. rewrite Hf. apply app_assoc.
Qed.

Lemma outcome_after {A B : Type} (m : M A) (f : A -> M B) (a : A) :
  outcome m = Return a -> outcome (bind m f) = outcome (f a).
Proof. intros Ha. rewrite outcome_bind, Ha. reflexivity. Qed.

Lemma get_app_r {V : Type} (k : string) (d d' : dict V) :
  get k d = None -> get k (d ++ d') = get k d'.
Proof.
  induction d as [|[k0 v0] r IH]; simpl; [reflexivity|].
  destruct (String.eqb k k0); [discriminate | exact IH].
Qed.

Lemma add_keywords_inv (kw kw' : dict Arg) (extra : list (string * Arg)) :
  add_keywords kw extra = Return kw' ->
  kw' = kw ++ extra /\ Forall (fun ka => mem (fst ka) kw = false) extra.
Proof.
  revert kw. induction extra as [|[k a] r IH]; intros kw; simpl.
  - intros E. inversion E. now rewrite app_nil_r.
  - destruct (mem k kw) eqn:Ek; [discriminate|].
    intros E. destruct (IH _ E) as [-> Hall]. split.
    + now rewrite <- app_assoc.
    + constructor; [exact Ek|].
      eapply Forall_impl; [|exact Hall]. intros [k' a'] Hk. simpl in *.
      apply mem_false_iff in Hk. apply mem_false_iff.
      destruct (get k' kw) as [v|] eqn:Eg; [|reflexivity].
      now rewrite (get_app_l k' v kw [(k, a)] Eg) in Hk.
Qed.

Ltac hush Hin :=
  exfalso;
  first
    [ solve [ apply quiet_lift in Hin; discriminate Hin ]
    | solve [ apply quiet_load in Hin; discriminate Hin ]
    | solve [ apply quiet_restore in Hin; discriminate Hin ]
    | solve [ apply quiet_bind_randomizer in Hin; discriminate Hin ]
    | solve [ apply quiet_rscope in Hin; discriminate Hin ]
    | solve [ match type of Hin with
              | context [if ?c then _ else _] => destruct c
              end;
              simpl in Hin; intuition discriminate ]
    | solve [ simpl in Hin; intuition discriminate ] ].

Ltac peel Hin :=
  let a := fresh "a" in
  let Ha := fresh "Ha" in
  apply in_events_bind in Hin;
  destruct Hin as [Hin | (a & Ha & Hin)]; [ hush Hin | cbv beta zeta in Hin ].

(** From a call of the trainer among the events of [main] to the outcomes
    of all the statements before it. *)
Ltac same_outcomes :=
  repeat match goal with
         | Hx : outcome ?m = Return ?x, Hy : outcome ?m = Return ?y |- _ =>
             assert (y = x)
               by (rewrite Hx in Hy; unfold Return in Hy; congruence);
             subst y; clear Hy
         end.

Ltac reach Hin kwargs :=
  unfold main in Hin; cbv zeta in Hin;
  do 23 (peel Hin);
  cbn [events emit fst In] in Hin;
  destruct Hin as [Hin|[]];
  injection Hin as Hin; symmetry in Hin;
  same_outcomes.

Ltac quiet_step :=
  first
    [ apply quiet_lift
    | apply quiet_load
    | apply quiet_restore
    | apply quiet_bind_randomizer
    | apply quiet_rscope
    | apply quiet_emit; reflexivity
    | match goal with
      | |- quiet (events (if ?c then _ else _)) => destruct c
      end;
      repeat (apply quiet_bind; [apply quiet_emit; reflexivity | intros _]);
      first [ apply quiet_emit; reflexivity | exact quiet_nil ] ].

Section Run.
Variable check_write : ConfigDict -> string -> value -> Exc value.
Variable brax_ppo_config : string -> string -> Exc ConfigDict.
Variable brax_fql_config : string -> string -> Exc ConfigDict.

Abbreviation run_main := (main check_write brax_ppo_config brax_fql_config).


(** The keywords bound by [functools.partial] at lines 342-351, after the
    training parameters. *)
Definition bound_by_script
  (H : Host) (F : Flags) (network_factory : Arg) (restore : option path)
  (num_eval_envs : value) : list (string * Arg) :=
  [ ("network_factory", network_factory);
    ("seed", AVal (VInt (Absl.value (_SEED (run F)))));
    ("restore_checkpoint_path", optional_path restore);
    ("save_checkpoint_path", APath (ckpt_dir H F));
    ("wrap_env_fn", AFunc "wrapper.wrap_for_brax_training");
    ("num_eval_envs", AVal num_eval_envs) ].

(** Every statement before the call of the trainer has returned, with these
    values. *)
Lemma trainer_reached
  (R : Registry.State) (H : Host) (F : Flags) (kwargs : dict Arg) :
  In (Call "ppo.train" kwargs) (events (run_main R H F)) ->
  exists cfg0 env_cfg rl0 rl env restore tp nf tp1 nev train_fn ppf pre,
    Registry.get_default_config R (Absl.value (_ENV_NAME (run F))) = Return cfg0
    /\ setitem check_write cfg0 "impl" (VStr (Absl.value (_IMPL (run F)))) = Return env_cfg
    /\ get_rl_config brax_ppo_config brax_fql_config R (Absl.value (_IMPL (run F)))
         (Absl.value (_ENV_NAME (run F))) (Absl.value (_AGENT (run F))) = Return rl0
    /\ resolve_config check_write F rl0 = Return rl
    /\ outcome (Registry.load R (Absl.value (_ENV_NAME (run F))) (Some env_cfg) None)
       = Return env
    /\ outcome (restore_checkpoint_path H (Absl.value (_LOAD_CHECKPOINT_PATH (run F))))
       = Return restore
    /\ to_dict rl = Return tp
    /\ bind_network_factory rl = Return nf
    /\ outcome (bind_randomizer R F (del "network_factory" tp)) = Return tp1
    /\ rl_get rl "num_eval_envs" (VInt 128) = Return nev
    /\ add_keywords (del "num_eval_envs" tp1) (bound_by_script H F nf restore nev)
       = Return train_fn
    /\ outcome (rscope R F env_cfg rl (del "num_eval_envs" tp1)) = Return ppf
    /\ kwargs = call_keywords train_fn
                  [ ("environment", AEnv env);
                    ("progress_fn", AFunc "progress");
                    ("policy_params_fn", ppf);
                    ("eval_env", AEnv env) ]
    /\ events (run_main R H F) = pre ++ [Call "ppo.train" kwargs]
    /\ quiet pre
    /\ In (Mkdir (logdir H F)) pre
    /\ In (Mkdir (ckpt_dir H F)) pre
    /\ In (WriteJson (child (ckpt_dir H F) "config.json") (VConfig env_cfg)) pre.
Proof.
  intros Hin. reach Hin kwargs.
  exists a, a0, a1, a2, a3, a11, a15, a16, a17, a18, a19, a21.
  assert (Hev : exists pre,
             events (run_main R H F) = pre ++ [Call "ppo.train" kwargs]
             /\ quiet pre
             /\ In (Mkdir (logdir H F)) pre
             /\ In (Mkdir (ckpt_dir H F)) pre
             /\ In (WriteJson (child (ckpt_dir H F) "config.json") (VConfig a0)) pre).
  { subst kwargs. eexists.
    split; [|split; [|split; [|split]]].
    - unfold main. cbv zeta.
      repeat (eapply last_bind; [eassumption | cbv beta zeta]).
      cbn [events emit fst]. rewrite app_nil_l. reflexivity.
    - repeat (apply quiet_app; [quiet_step|]). exact quiet_nil.
    - repeat (apply in_or_app;
              first [ left; solve [cbn [events emit fst]; left; reflexivity] | right ]).
    - repeat (apply in_or_app;
              first [ left; solve [cbn [events emit fst]; left; reflexivity] | right ]).
    - repeat (apply in_or_app;
              first [ left; solve [cbn [events emit fst]; left; reflexivity] | right ]). }
  destruct Hev as (pre & Hpre & Hq & H1 & H2 & H3).
  exists pre.
  split; [exact Ha|]. split; [exact Ha0|]. split; [exact Ha1|]. split; [exact Ha2|].
  split; [exact Ha3|]. split; [exact Ha11|]. split; [exact Ha15|]. split; [exact Ha16|].
  split; [exact Ha17|]. split; [exact Ha18|]. split; [exact Ha19|]. split; [exact Ha21|].
  split; [exact Hin|]. split; [exact Hpre|]. split; [exact Hq|].
  split; [exact H1|]. split; [exact H2|]. exact H3.
Qed.


(** ** What the dictionaries hold *)

Lemma get_map_AVal (k : string) (c : ConfigDict) :
  get k (map (fun kv => (fst kv, AVal (snd kv))) c) = option_map AVal (get k c).
Proof.
  induction c as [|[k0 v0] r IH]; simpl; [reflexivity|].
  destruct (String.eqb k k0); [reflexivity | exact IH].
Qed.

Lemma to_dict_inv (rl : RlParams) (tp : dict Arg) :
  to_dict rl = Return tp ->
  exists c, rl = Tree c /\ tp = map (fun kv => (fst kv, AVal (snd kv))) c.
Proof.
  destruct rl as [c|e attrs]; simpl; intros E; [|discriminate].
  inversion E. now exists c.
Qed.

(** The randomizer step writes [randomization_fn] and nothing else, and
    only with [--domain_randomization]. *)
Lemma bind_randomizer_frame (R : Registry.State) (F : Flags) (tp tp1 : dict Arg) k :
  outcome (bind_randomizer R F tp) = Return tp1 ->
  (Absl.value (_DOMAIN_RANDOMIZATION (run F)) = true -> k <> "randomization_fn") ->
  get k tp1 = get k tp.
Proof.
  unfold bind_randomizer. intros Ho Hk.
  destruct (Absl.value (_DOMAIN_RANDOMIZATION (run F))).
  - apply outcome_bind_Return in Ho. destruct Ho as (r & _ & Ho).
    inversion Ho. apply get_set_other. now apply Hk.
  - now inversion Ho.
Qed.

Lemma Forall_mem_get (kw : dict Arg) (extra : list (string * Arg)) k :
  Forall (fun ka => mem (fst ka) kw = false) extra ->
  mem k extra = true -> get k kw = None.
Proof.
  induction 1 as [|[k0 a0] r Hk0 _ IH]; simpl; [discriminate|].
  unfold mem. simpl. destruct (String.eqb_spec k k0) as [->|_].
  - intros _. now apply mem_false_iff.
  - exact IH.
Qed.

(** An exception instance stays one through the overrides. *)
Lemma apply_overrides_instance (os : list Override) e attrs rl :
  apply_overrides check_write os (Instance e attrs) = Return rl ->
  exists attrs', rl = Instance e attrs'.
Proof.
  revert attrs. induction os as [|o r IH]; intros attrs; simpl.
  - intros E. inversion E. now exists attrs.
  - destruct (apply_override check_write (Instance e attrs) o) as [x|rl1] eqn:E1;
      simpl; [discriminate|].
    assert (exists attrs1, rl1 = Instance e attrs1) as [attrs1 ->].
    { unfold apply_override in E1. destruct (supplied o).
      - destruct (rhs o) as [x|v]; simpl in E1; [discriminate|].
        destruct (target o) as [k|k]; simpl in E1.
        + inversion E1. eauto.
        + unfold rl_setnested in E1. simpl in E1.
          destruct (get "network_factory" attrs) as [nf|]; simpl in E1; [|discriminate].
          destruct nf; try discriminate.
          destruct (setattr check_write _ k v) as [x|f']; simpl in E1; [discriminate|].
          inversion E1. eauto.
      - inversion E1. eauto. }
    apply IH.
Qed.

(** [get_rl_config] with a name that is neither spelling of an agent. *)
Lemma unknown_agent_instance (R : Registry.State) (impl env_name agent : string) rl :
  String.eqb (lower agent) "ppo" = false ->
  String.eqb (lower agent) "fql" = false ->
  get_rl_config brax_ppo_config brax_fql_config R impl env_name agent = Return rl ->
  rl = Instance (ValueError "Invalid agent name.") [].
Proof.
  intros Hp Hf. unfold get_rl_config. rewrite Hp, Hf.
  destruct (mem env_name _); intros E; [|discriminate].
  now inversion E.
Qed.


(** X12. The keywords the script sets itself reach the trainer as the
    script computed them, whatever the configuration holds: the seed flag,
    the checkpoint directory of this run as the place to save to, the
    resolved checkpoint to restore from, the brax wrapper, the progress
    callback, and as [environment] and [eval_env] two environments loaded
    from the same name and the same configuration. *)
Theorem trainer_keywords_come_from_the_script
  (R : Registry.State) (H : Host) (F : Flags) (kwargs : dict Arg) :
  In (Call "ppo.train" kwargs) (events (run_main R H F)) ->
  get "seed" kwargs = Some (AVal (VInt (Absl.value (_SEED (run F)))))
  /\ get "save_checkpoint_path" kwargs = Some (APath (ckpt_dir H F))
  /\ get "wrap_env_fn" kwargs = Some (AFunc "wrapper.wrap_for_brax_training")
  /\ get "progress_fn" kwargs = Some (AFunc "progress")
  /\ (exists restore,
        outcome (restore_checkpoint_path H (Absl.value (_LOAD_CHECKPOINT_PATH (run F))))
        = Return restore
        /\ get "restore_checkpoint_path" kwargs = Some (optional_path restore))
  /\ (exists env_cfg env,
        In (WriteJson (child (ckpt_dir H F) "config.json") (VConfig env_cfg))
           (events (run_main R H F))
        /\ outcome (Registry.load R (Absl.value (_ENV_NAME (run F))) (Some env_cfg) None)
           = Return env
        /\ get "environment" kwargs = Some (AEnv env)
        /\ get "eval_env" kwargs = Some (AEnv env)).
Proof.
  intros Hin. apply trainer_reached in Hin.
  destruct Hin as (cfg0 & env_cfg & rl0 & rl & env & restore & tp & nf & tp1 & nev
                   & train_fn & ppf & pre & _ & _ & _ & _ & Hl & Hr & _ & _ & _ & _
                   & Hk & _ & -> & Hev & _ & _ & _ & H3).
  apply add_keywords_inv in Hk. destruct Hk as [-> Hall].
  assert (Hb : forall k a,
             get k (bound_by_script H F nf restore nev) = Some a ->
             get k (del "num_eval_envs" tp1 ++ bound_by_script H F nf restore nev)
             = Some a).
  { intros k a Hg. rewrite get_app_r; [exact Hg|].
    apply (Forall_mem_get _ _ _ Hall). apply mem_true_iff. now exists a. }
  unfold call_keywords. cbn [fold_left fst snd].
  split; [|split; [|split; [|split; [|split]]]].
  - rewrite !get_set_other by discriminate. now apply Hb.
  - rewrite !get_set_other by discriminate. now apply Hb.
  - rewrite !get_set_other by discriminate. now apply Hb.
  - rewrite !(get_set_other _ "progress_fn") by discriminate. apply get_set_same.
  - exists restore. split; [exact Hr|].
    rewrite !get_set_other by discriminate. now apply Hb.
  - exists env_cfg, env. split; [|split; [exact Hl|split]].
    + rewrite Hev. apply in_or_app. now left.
    + rewrite !(get_set_other _ "environment") by discriminate. apply get_set_same.
    + apply get_set_same.
Qed.

(** The keywords of the call that are not read from the training
    parameters. *)
Definition set_by_script : list string :=
  [ "network_factory"; "num_eval_envs"; "environment"; "progress_fn";
    "policy_params_fn"; "eval_env" ].

(** X13. What the trainer gets from the configuration: whenever the trainer
    is called, the agent's configuration was a tree, the overrides of the
    flags resolved it to a tree [c], and [c] holds none of [seed],
    [restore_checkpoint_path], [save_checkpoint_path] and [wrap_env_fn] (a
    parameter of one of these names makes [functools.partial] fail before
    the trainer is reached).  Every other parameter of [c] is passed under
    its own name and with its resolved value, [num_eval_envs] is passed
    with 128 as its default, and [network_factory] is the network function
    with the sub-tree bound, or the bare function without one. *)
Theorem trainer_gets_resolved_parameters
  (R : Registry.State) (H : Host) (F : Flags) (kwargs : dict Arg) :
  In (Call "ppo.train" kwargs) (events (run_main R H F)) ->
  exists c0 c,
    get_rl_config brax_ppo_config brax_fql_config R (Absl.value (_IMPL (run F)))
      (Absl.value (_ENV_NAME (run F))) (Absl.value (_AGENT (run F))) = Return (Tree c0)
    /\ resolve_config check_write F (Tree c0) = Return (Tree c)
    /\ Forall (fun k => get k c = None) reserved
    /\ (forall k v,
          get k c = Some v ->
          ~ In k set_by_script ->
          (Absl.value (_DOMAIN_RANDOMIZATION (run F)) = true -> k <> "randomization_fn") ->
          get k kwargs = Some (AVal v))
    /\ get "num_eval_envs" kwargs = Some (AVal (get_default "num_eval_envs" (VInt 128) c))
    /\ ((get "network_factory" c = None
         /\ get "network_factory" kwargs = Some (AFunc network_fn))
        \/ (exists fields,
              get "network_factory" c = Some (VConfig fields)
              /\ get "network_factory" kwargs = Some (APartial network_fn fields))).
Proof.
  intros Hin. apply trainer_reached in Hin.
  destruct Hin as (cfg0 & env_cfg & rl0 & rl & env & restore & tp & nf & tp1 & nev
                   & train_fn & ppf & pre & _ & _ & Hg & Hres & _ & _ & Htd & Hnf & Hdr
                   & Hnev & Hk & _ & -> & _).
  apply to_dict_inv in Htd. destruct Htd as (c & -> & ->).
  assert (exists c0, rl0 = Tree c0) as [c0 ->].
  { destruct rl0 as [c0|e attrs]; [now exists c0|].
    apply apply_overrides_instance in Hres. destruct Hres as [attrs' Hres]. discriminate. }
  exists c0, c.
  apply add_keywords_inv in Hk. destruct Hk as [-> Hall].
  set (tp0 := map (fun kv => (fst kv, AVal (snd kv))) c) in *.
  assert (Hb : forall k a,
             get k (bound_by_script H F nf restore nev) = Some a ->
             get k (del "num_eval_envs" tp1 ++ bound_by_script H F nf restore nev)
             = Some a).
  { intros k a Hga. rewrite get_app_r; [exact Hga|].
    apply (Forall_mem_get _ _ _ Hall). apply mem_true_iff. now exists a. }
  assert (Hfw : forall k,
             k <> "network_factory" -> k <> "num_eval_envs" ->
             (Absl.value (_DOMAIN_RANDOMIZATION (run F)) = true -> k <> "randomization_fn") ->
             get k (del "num_eval_envs" tp1) = option_map AVal (get k c)).
  { intros k Hk1 Hk2 Hk3.
    rewrite get_del_other by exact Hk2.
    rewrite (bind_randomizer_frame _ _ _ _ k Hdr Hk3).
    rewrite get_del_other by exact Hk1.
    apply get_map_AVal. }
  assert (Hdrk : forall k, In k reserved ->
             Absl.value (_DOMAIN_RANDOMIZATION (run F)) = true -> k <> "randomization_fn").
  { intros k Hk _. unfold reserved in Hk. simpl in Hk.
    intuition (subst; discriminate). }
  unfold call_keywords. cbn [fold_left fst snd].
  split; [exact Hg|]. split; [exact Hres|].
  split; [|split; [|split]].
  - apply Forall_forall. intros k Hk.
    assert (Hn : get k (del "num_eval_envs" tp1) = None).
    { apply (Forall_mem_get _ _ _ Hall).
      unfold reserved in Hk. simpl in Hk.
      destruct Hk as [<-|[<-|[<-|[<-|[]]]]]; reflexivity. }
    rewrite Hfw in Hn.
    + destruct (get k c); [discriminate | reflexivity].
    + unfold reserved in Hk. simpl in Hk. intuition (subst; discriminate).
    + unfold reserved in Hk. simpl in Hk. intuition (subst; discriminate).
    + now apply Hdrk.
  - intros k v Hgk Hns Hk3.
    assert (Hne : forall k', In k' set_by_script -> k <> k').
    { intros k' Hk' ->. now apply Hns. }
    rewrite !get_set_other
      by (apply Hne; unfold set_by_script; simpl; tauto).
    apply get_app_l. rewrite Hfw.
    + now rewrite Hgk.
    + apply Hne. unfold set_by_script. simpl. tauto.
    + apply Hne. unfold set_by_script. simpl. tauto.
    + exact Hk3.
  - rewrite !get_set_other by discriminate.
    simpl in Hnev. unfold Return in Hnev. injection Hnev as Hnev.
    rewrite Hnev. now apply Hb.
  - rewrite !get_set_other by discriminate.
    unfold bind_network_factory in Hnf. simpl in Hnf. unfold getattr in Hnf.
    destruct (get "network_factory" c) as [v|]; simpl in Hnf.
    + destruct v as [| | | | | | |fields]; try discriminate Hnf.
      right. exists fields. split; [reflexivity|].
      unfold Return in Hnf. injection Hnf as Hnf. rewrite Hnf. now apply Hb.
    + left. split; [reflexivity|].
      unfold Return in Hnf. injection Hnf as Hnf. rewrite Hnf. now apply Hb.
Qed.

(** X14. A name that is no spelling of [ppo] or [fql] never reaches the
    trainer, whatever else the flags say: the value [get_rl_config] returns
    for it cannot be turned into training parameters, so the run ends with
    an exception and [ppo.train] is not among its events. *)
Theorem unknown_agent_never_trains
  (R : Registry.State) (H : Host) (F : Flags) :
  String.eqb (lower (Absl.value (_AGENT (run F)))) "ppo" = false ->
  String.eqb (lower (Absl.value (_AGENT (run F)))) "fql" = false ->
  quiet (events (run_main R H F))
  /\ exists e, outcome (run_main R H F) = Raise e.
Proof.
  intros Hp Hf.
  assert (Hq : quiet (events (run_main R H F))).
  { intros ev Hin. destruct (is_train_call ev) eqn:Ec; [exfalso | reflexivity].
    destruct ev as [| | | |callee kwargs]; try discriminate Ec.
    simpl in Ec. apply String.eqb_eq in Ec. subst callee.
    apply trainer_reached in Hin.
    destruct Hin as (cfg0 & env_cfg & rl0 & rl & env & restore & tp & nf & tp1 & nev
                     & train_fn & ppf & pre & _ & _ & Hg & Hres & _ & _ & Htd & _).
    apply (unknown_agent_instance _ _ _ _ _ Hp Hf) in Hg. subst rl0.
    apply apply_overrides_instance in Hres. destruct Hres as [attrs' ->].
    discriminate Htd. }
  split; [exact Hq|].
  destruct (outcome (run_main R H F)) as [e|[]] eqn:Eo; [now exists e | exfalso].
  unfold main in Eo. cbv zeta in Eo.
  do 23 (apply outcome_bind_Return in Eo;
         let a := fresh "a" in let Ha := fresh "Ha" in
         destruct Eo as (a & Ha & Eo); cbv beta zeta in Eo).
  same_outcomes.
  apply (unknown_agent_instance _ _ _ _ _ Hp Hf) in Ha1. subst a1.
  apply apply_overrides_instance in Ha2. destruct Ha2 as [attrs' ->].
  discriminate Ha15.
Qed.

(** X15. With such a name and a network flag on the command line the run
    stops before any effect: the nested assignment finds no
    [network_factory] on the returned value.  No environment is built, no
    directory created, nothing printed. *)
Theorem unknown_agent_with_network_flag_has_no_effect
  (R : Registry.State) (H : Host) (F : Flags) :
  String.eqb (lower (Absl.value (_AGENT (run F)))) "ppo" = false ->
  String.eqb (lower (Absl.value (_AGENT (run F)))) "fql" = false ->
  nested_supplied (overrides F) = true ->
  exists e, run_main R H F = ([], Raise e).
Proof.
  intros Hp Hf Hn.
  unfold main. cbv zeta.
  destruct (Registry.get_default_config R _) as [e|cfg0]; [now exists e|].
  cbn [lift bind].
  destruct (setitem check_write cfg0 _ _) as [e|env_cfg]; [now exists e|].
  cbn [lift bind].
  destruct (get_rl_config _ _ _ _ _ _) as [e|rl0] eqn:Eg; [now exists e|].
  apply (unknown_agent_instance _ _ _ _ _ Hp Hf) in Eg. subst rl0.
  cbn [lift bind].
  destruct (apply_overrides_nested_raises check_write (overrides F)
              (Instance (ValueError "Invalid agent name.") []))
    as [e He].
  - apply overrides_keep_subtree_key.
  - reflexivity.
  - exact Hn.
  - exists e. rewrite resolve_config_eq. rewrite He. reflexivity.
Qed.

End Run.

(** ** Sample runs *)

(** The keywords of the last event of a run, when it is a call. *)
Definition last_call_keywords (t : list Event) : dict Arg :=
  match last t (Print []) with
  | Call _ kwargs => kwargs
  | _ => []
  end.

(** [--agent=sac --policy_obs_key=privileged_state]. *)
Definition sac_with_obs_key : Flags :=
  {| run := supply_agent "sac" run_defaults;
     params := supply_policy_obs_key "privileged_state" param_defaults |}.


Lemma trainer_keywords_witness :
  let R := Registry.imported custom_tables in
  let H := host_listing [] in
  let r := main unchecked sample_brax_config sample_brax_config R H custom_run in
  let kwargs := last_call_keywords (events r) in
  get "seed" kwargs = Some (AVal (VInt 1))
  /\ get "save_checkpoint_path" kwargs = Some (APath (ckpt_dir H custom_run))
  /\ get "wrap_env_fn" kwargs = Some (AFunc "wrapper.wrap_for_brax_training")
  /\ get "progress_fn" kwargs = Some (AFunc "progress")
  /\ (exists restore,
        outcome (restore_checkpoint_path H None) = Return restore
        /\ get "restore_checkpoint_path" kwargs = Some (optional_path restore))
  /\ (exists env_cfg env,
        In (WriteJson (child (ckpt_dir H custom_run) "config.json") (VConfig env_cfg))
           (events r)
        /\ outcome (Registry.load R "Custom" (Some env_cfg) None) = Return env
        /\ get "environment" kwargs = Some (AEnv env)
        /\ get "eval_env" kwargs = Some (AEnv env)).
Proof.
  apply (trainer_keywords_come_from_the_script unchecked sample_brax_config
           sample_brax_config (Registry.imported custom_tables) (host_listing [])
           custom_run).
  vm_compute. repeat first [left; reflexivity | right].
Defined.

Lemma trainer_parameters_witness :
  let R := Registry.imported custom_tables in
  let H := host_listing [] in
  let r := main unchecked sample_brax_config sample_brax_config R H custom_run in
  let kwargs := last_call_keywords (events r) in
  exists c0 c,
    get_rl_config sample_brax_config sample_brax_config R "jax" "Custom" "ppo"
    = Return (Tree c0)
    /\ resolve_config unchecked custom_run (Tree c0) = Return (Tree c)
    /\ Forall (fun k => get k c = None) reserved
    /\ (forall k v,
          get k c = Some v ->
          ~ In k set_by_script ->
          (true = true -> k <> "randomization_fn") ->
          get k kwargs = Some (AVal v))
    /\ get "num_eval_envs" kwargs = Some (AVal (get_default "num_eval_envs" (VInt 128) c))
    /\ ((get "network_factory" c = None
         /\ get "network_factory" kwargs = Some (AFunc network_fn))
        \/ (exists fields,
              get "network_factory" c = Some (VConfig fields)
              /\ get "network_factory" kwargs = Some (APartial network_fn fields))).
Proof.
  apply (trainer_gets_resolved_parameters unchecked sample_brax_config
           sample_brax_config (Registry.imported custom_tables) (host_listing [])
           custom_run).
  vm_compute. repeat first [left; reflexivity | right].
Defined.

Lemma unknown_agent_witness :
  let F := with_run (supply_agent "sac" run_defaults) in
  let r := main unchecked sample_brax_config sample_brax_config
             (Registry.imported sample_tables) (host_listing []) F in
  quiet (events r) /\ exists e, outcome r = Raise e.
Proof.
  exact (unknown_agent_never_trains unchecked sample_brax_config sample_brax_config
           (Registry.imported sample_tables) (host_listing [])
           (with_run (supply_agent "sac" run_defaults)) eq_refl eq_refl).
Defined.

Lemma unknown_agent_network_flag_witness :
  exists e,
    main unchecked sample_brax_config sample_brax_config
      (Registry.imported sample_tables) (host_listing []) sac_with_obs_key
    = ([], Raise e).
Proof.
  exact (unknown_agent_with_network_flag_has_no_effect unchecked sample_brax_config
           sample_brax_config (Registry.imported sample_tables) (host_listing [])
           sac_with_obs_key eq_refl eq_refl eq_refl).
Defined.

End MainProps.

(* ===================================================================== *)
(** * What a rollout records *)
(* ===================================================================== *)

Module RolloutProps.
Import Py Config World TrainJaxPpo PyFacts RolloutFacts.
Local Open Scope py_scope.

Section Recorder.
Variable array : Type.
Variable key : Type.
Variable action : Type.
Variable subkey : key -> nat -> nat -> key.
Variable env_step : State array -> action -> State array.
Variable jit_inference_fn : option array -> key -> action.

Abbreviation rollout :=
  (do_rollout array key action subkey env_step jit_inference_fn).
Abbreviation one_step :=
  (step array key action subkey env_step jit_inference_fn).

(** The carry of the scan after [n] steps: the policy acts on the
    observation of the current state with the second half of the split key,
    the first half is carried on. *)
Fixpoint carry_after (n : nat) (carry : State array * key) : State array * key :=
  match n with
  | O => carry
  | S m =>
      let (state, rng) := carry_after m carry in
      (env_step state (jit_inference_fn (obs array state) (subkey rng 2 1)),
       subkey rng 2 0)
  end.

Lemma carry_after_shift (n : nat) (carry : State array * key) empty :
  carry_after (S n) carry = carry_after n (fst (one_step empty carry)).
Proof.
  induction n as [|n IH].
  - destruct carry as [state rng]. reflexivity.
  - change (carry_after (S (S n)) carry)
      with (let (state, rng) := carry_after (S n) carry in
            (env_step state (jit_inference_fn (obs array state) (subkey rng 2 1)),
             subkey rng 2 0)).
    rewrite IH. reflexivity.
Qed.

Lemma scan_nth (empty : State array) (n j : nat) (carry : State array * key) :
  j < n ->
  nth_error (scan array key (one_step empty) carry n) j
  = Some (tree_replace array empty (data array (fst (carry_after (S j) carry)))).
Proof.
  revert j carry. induction n as [|n IH]; intros j carry Hj; [lia|].
  cbn [scan].
  pose proof (step_snapshot array key action subkey env_step jit_inference_fn
                empty carry) as Hs.
  cbv zeta in Hs.
  pose proof (carry_after_shift j carry empty) as Hc.
  destruct (one_step empty carry) as [carry' y]. cbn [fst snd] in Hs, Hc.
  destruct j as [|j]; cbn [nth_error].
  - rewrite Hs, Hc. reflexivity.
  - rewrite IH by lia. rewrite Hc.
    now rewrite (carry_after_shift j carry' empty),
                <- (carry_after_shift j carry' empty).
Qed.

(** X16. Snapshot [j] of a rollout shows the state after [j + 1] steps of
    the environment: the reset state itself is never recorded, and the last
    snapshot is the state after [episode_length] steps.  Out of that range
    there is no snapshot. *)
Theorem snapshot_shows_the_state_after_the_step
  (episode_length j : nat) (rng : key) (state : State array) :
  nth_error (rollout episode_length rng state) j
  = if Nat.ltb j episode_length
    then Some (tree_replace array (empty_traj array state)
                 (data array (fst (carry_after (S j) (state, rng)))))
    else None.
Proof.
  unfold do_rollout. destruct (Nat.ltb_spec j episode_length) as [Hj|Hj].
  - now apply scan_nth.
  - apply nth_error_None. now rewrite scan_length.
Qed.

(** X17. A longer episode extends a shorter one: the first
    [episode_length] snapshots do not depend on how long the rollout goes
    on. *)
Theorem longer_rollout_extends_shorter
  (episode_length more : nat) (rng : key) (state : State array) :
  firstn episode_length (rollout (episode_length + more) rng state)
  = rollout episode_length rng state.
Proof.
  unfold do_rollout. generalize (state, rng) as carry.
  generalize (one_step (empty_traj array state)) as f.
  induction episode_length as [|n IH]; intros f carry; [reflexivity|].
  cbn [Nat.add scan]. destruct (f carry) as [carry' y].
  cbn [firstn]. now rewrite IH.
Qed.

End Recorder.
End RolloutProps.

(* ===================================================================== *)
(** * Logging sinks *)
(* ===================================================================== *)

Module LoggingProps.
Import Py Config World TrainJaxPpo PyFacts ConfigFacts CheckpointFacts RegistryFacts.
Import MainFacts MainProps.
Local Open Scope py_scope.

(** The calls that open or configure Weights & Biases or TensorBoard. *)
Definition is_sink (ev : Event) : bool :=
  match ev with
  | Call callee _ =>
      elem callee ["wandb.init"; "wandb.config.update"; "tensorboardX.SummaryWriter"]
  | _ => false
  end.

(** No event of kind [p]. *)
Definition silent (p : Event -> bool) (t : list Event) : Prop :=
  forall ev, In ev t -> p ev = false.

Section Silence.
Variable p : Event -> bool.

Lemma silent_nil : silent p [].
Proof. intros ev []. Qed.

Lemma silent_cons ev t : p ev = false -> silent p t -> silent p (ev :: t).
Proof. intros He Ht x [<-|Hx]; auto. Qed.

Lemma silent_bind {A B : Type} (m : M A) (f : A -> M B) :
  silent p (events m) -> (forall a, silent p (events (f a))) ->
  silent p (events (bind m f)).
Proof.
  intros Hm Hf ev Hin. apply in_events_bind in Hin.
  destruct Hin as [Hin|(a & _ & Hin)]; [now apply Hm | now apply (Hf a)].
Qed.

Lemma silent_lift {A : Type} (x : Exc A) : silent p (events (lift x)).
Proof. exact silent_nil. Qed.

Lemma silent_emit (ev : Event) : p ev = false -> silent p (events (emit ev)).
Proof. intros He. apply silent_cons; [exact He | exact silent_nil]. Qed.

End Silence.

Ltac hushed :=
  repeat first
    [ exact (silent_nil _)
    | apply silent_lift
    | apply silent_emit; reflexivity
    | apply silent_bind; [|intro] ].

Lemma sink_free_load R env_name config ov :
  silent is_sink (events (Registry.load R env_name config ov)).
Proof.
  unfold Registry.load. destruct (elem env_name _); [|exact (silent_nil _)].
  unfold Locomotion.load.
  apply silent_bind; [apply silent_emit; reflexivity|]. intros _.
  destruct (get env_name _) as [cls|]; [|exact (silent_nil _)].
  unfold Locomotion.construct. hushed.
Qed.

Lemma sink_free_restore (H : Host) p0 :
  silent is_sink (events (restore_checkpoint_path H p0)).
Proof.
  unfold restore_checkpoint_path. destruct p0 as [p0|].
  - destruct (is_dir H (resolve H p0)); hushed.
  - hushed.
Qed.

Lemma sink_free_bind_randomizer R F tp :
  silent is_sink (events (bind_randomizer R F tp)).
Proof.
  unfold bind_randomizer. destruct (Absl.value _); [|exact (silent_nil _)].
  apply silent_bind; [|intros r; exact (silent_nil _)].
  unfold Registry.get_domain_randomizer, Locomotion.get_domain_randomizer.
  destruct (elem _ _); [|exact (silent_nil _)].
  destruct (get _ _); [exact (silent_nil _)|]. unfold print. hushed.
Qed.

Lemma sink_free_rscope R F env_cfg rl tp :
  silent is_sink (events (rscope R F env_cfg rl tp)).
Proof.
  unfold rscope. destruct (Absl.value (_RSCOPE_ENVS (run F))) as [n|];
    [|exact (silent_nil _)].
  destruct (n =? 0)%Z; [exact (silent_nil _)|].
  apply silent_bind; [apply sink_free_load|]. intros e. hushed.
Qed.

Section Run.
Variable check_write : ConfigDict -> string -> value -> Exc value.
Variable brax_ppo_config : string -> string -> Exc ConfigDict.
Variable brax_fql_config : string -> string -> Exc ConfigDict.

Abbreviation run_main := (main check_write brax_ppo_config brax_fql_config).

(** X18. Neither Weights & Biases nor TensorBoard is touched by a run
    unless its flag is set and the run is not play-only: with [--play_only],
    or with both flags off, no event of the run is a call of [wandb.init],
    [wandb.config.update] or [tensorboardX.SummaryWriter]. *)
Theorem sinks_stay_closed (R : Registry.State) (H : Host) (F : Flags) :
  Absl.value (_USE_WANDB (run F)) && negb (Absl.value (_PLAY_ONLY (run F))) = false ->
  Absl.value (_USE_TB (run F)) && negb (Absl.value (_PLAY_ONLY (run F))) = false ->
  silent is_sink (events (run_main R H F)).
Proof.
  intros Hw Ht. unfold main. cbv zeta. rewrite Hw, Ht.
  repeat first
    [ apply sink_free_load
    | apply sink_free_restore
    | apply sink_free_bind_randomizer
    | apply sink_free_rscope
    | exact (silent_nil _)
    | apply silent_lift
    | apply silent_emit; reflexivity
    | apply silent_bind; [|intro] ].
Qed.

(** X19. A run that reaches the trainer has by then opened the sinks asked
    for: with [--use_wandb] and no [--play_only], the W&B run of project
    [mjxrl] named after the experiment, updated with the environment
    configuration that is also saved to [config.json]; with [--use_tb] and
    no [--play_only], a summary writer on the log directory. *)
Theorem sinks_are_open_before_training
  (R : Registry.State) (H : Host) (F : Flags) (kwargs : dict Arg) :
  In (Call "ppo.train" kwargs) (events (run_main R H F)) ->
  (Absl.value (_USE_WANDB (run F)) && negb (Absl.value (_PLAY_ONLY (run F))) = true ->
   In (Call "wandb.init" [ ("project", AVal (VStr "mjxrl"));
                           ("name", AVal (VStr (exp_name H F))) ])
      (events (run_main R H F))
   /\ exists env_cfg,
        In (Call "wandb.config.update" [("0", AVal (VConfig env_cfg))])
           (events (run_main R H F))
        /\ In (WriteJson (child (ckpt_dir H F) "config.json") (VConfig env_cfg))
              (events (run_main R H F)))
  /\ (Absl.value (_USE_TB (run F)) && negb (Absl.value (_PLAY_ONLY (run F))) = true ->
      In (Call "tensorboardX.SummaryWriter" [("0", APath (logdir H F))])
         (events (run_main R H F))).
Proof.
  intros Hin. reach Hin kwargs. clear Hin.
  split.
  - intros Hw. split; [|eexists; split].
    + unfold main. cbv zeta.
      repeat (apply in_events_bind;
              first [ left; rewrite Hw; cbn; left; reflexivity
                    | right; eexists; split; [eassumption | cbv beta zeta] ]).
    + unfold main. cbv zeta.
      repeat (apply in_events_bind;
              first [ left; rewrite Hw; cbn; right; left; reflexivity
                    | right; eexists; split; [eassumption | cbv beta zeta] ]).
    + unfold main. cbv zeta.
      repeat (apply in_events_bind;
              first [ left; solve [cbn [events emit fst]; left; reflexivity]
                    | right; eexists; split; [eassumption | cbv beta zeta] ]).
  - intros Ht. unfold main. cbv zeta.
    repeat (apply in_events_bind;
            first [ left; rewrite Ht; cbn; left; reflexivity
                  | right; eexists; split; [eassumption | cbv beta zeta] ]).
Qed.

End Run.
(** ** Sample runs *)

(** [--use_wandb --use_tb], with or without [--play_only]. *)
Definition logged_run (play_only : bool) : Flags :=
  with_run {| _ENV_NAME := _ENV_NAME run_defaults;
              _AGENT := _AGENT run_defaults;
              _IMPL := _IMPL run_defaults;
              _SUFFIX := _SUFFIX run_defaults;
              _PLAY_ONLY := Absl.given play_only;
              _USE_WANDB := Absl.given true;
              _USE_TB := Absl.given true;
              _LOAD_CHECKPOINT_PATH := _LOAD_CHECKPOINT_PATH run_defaults;
              _DOMAIN_RANDOMIZATION := _DOMAIN_RANDOMIZATION run_defaults;
              _SEED := _SEED run_defaults;
              _RSCOPE_ENVS := _RSCOPE_ENVS run_defaults;
              _DETERMINISTIC_RSCOPE := _DETERMINISTIC_RSCOPE run_defaults;
              _NUM_VIDEOS := _NUM_VIDEOS run_defaults |}.

Lemma sinks_stay_closed_witness :
  silent is_sink
    (events (main unchecked sample_brax_config sample_brax_config
               (Registry.imported sample_tables) (host_listing []) (logged_run true))).
Proof.
  exact (sinks_stay_closed unchecked sample_brax_config sample_brax_config
           (Registry.imported sample_tables) (host_listing []) (logged_run true)
           eq_refl eq_refl).
Defined.

Lemma sinks_are_open_witness :
  let H := host_listing [] in
  let r := main unchecked sample_brax_config sample_brax_config
             (Registry.imported sample_tables) H (logged_run false) in
  In (Call "wandb.init" [ ("project", AVal (VStr "mjxrl"));
                          ("name", AVal (VStr "G1JoystickFlatTerrain-20250101-000000")) ])
     (events r)
  /\ In (Call "tensorboardX.SummaryWriter"
           [("0", APath ["logs"; "G1JoystickFlatTerrain-20250101-000000"])])
        (events r).
Proof.
  assert (Hin : In (Call "ppo.train"
                      (last_call_keywords
                         (events (main unchecked sample_brax_config sample_brax_config
                                    (Registry.imported sample_tables) (host_listing [])
                                    (logged_run false)))))
                   (events (main unchecked sample_brax_config sample_brax_config
                              (Registry.imported sample_tables) (host_listing [])
                              (logged_run false)))).
  { vm_compute. repeat first [left; reflexivity | right]. }
  pose proof (sinks_are_open_before_training unchecked sample_brax_config
                sample_brax_config (Registry.imported sample_tables) (host_listing [])
                (logged_run false) _ Hin) as [Hw Ht].
  split; [exact (proj1 (Hw eq_refl)) | exact (Ht eq_refl)].
Defined.

End LoggingProps.

(* ===================================================================== *)
(** * scripts/train_jax_ppo.py: rendering the rollouts, lines 479-486 *)
(* ===================================================================== *)

From Stdlib Require Import DecimalString DecimalNat.

Module Render.
Import Py.
Local Open Scope string_scope.

(** [str(i)] for a non-negative integer. *)
Definition str (i : nat) : string := NilEmpty.string_of_uint (Nat.to_uint i).

(** [f"rollout{i}.mp4"] *)
Definition video_name (i : nat) : string := "rollout" ++ str i ++ ".mp4".

(** The elements of [l] from the [skip]-th on, [k] left out after each one
    taken. *)
Fixpoint every {A : Type} (k skip : nat) (l : list A) : list A :=
  match l with
  | [] => []
  | x :: r =>
      match skip with
      | O => x :: every k k r
      | S s => every k s r
      end
  end.

(** [l[::step]] for a step that is not negative. *)
Definition slice_step {A : Type} (l : list A) (step : nat) : Exc (list A) :=
  match step with
  | O => Raise (ValueError "slice step cannot be zero")
  | S k => Return (every k 0 l)
  end.

(** [enumerate(l)] *)
Definition enumerate {A : Type} (l : list A) : list (nat * A) :=
  combine (seq 0 (List.length l)) l.

Definition render_every : nat := 2.

Section Loop.

(** A snapshot of a trajectory, the frames [eval_env.render] makes of a
    list of them at a height and a width (with the scene option built once
    before the loop), and the frame rate computed before the loop. *)
Variable snapshot : Type.
Variable frames : Type.
Variable rate : Type.
Variable render : list snapshot -> Z -> Z -> frames.
Variable fps : rate.

Inductive Output : Type :=
| WriteVideo (name : string) (content : frames) (at_rate : rate)
| PrintLine (line : string).

(** The loop over [enumerate(trajectories)]: what it has written and
    printed, and how it ended. *)
Fixpoint render_loop (items : list (nat * list snapshot)) : list Output * Exc unit :=
  match items with
  | [] => ([], Return tt)
  | (i, rollout) :: rest =>
      match slice_step rollout render_every with
      | inl e => ([], inl e)
      | inr traj =>
          let out := [ WriteVideo (video_name i) (render traj 480 640) fps;
                       PrintLine ("Rollout video saved as '" ++ video_name i ++ "'.") ] in
          let (outs, r) := render_loop rest in
          ((out ++ outs)%list, r)
      end
  end.

Definition render_rollouts (trajectories : list (list snapshot))
  : list Output * Exc unit :=
  render_loop (enumerate trajectories).

(** The files written, in order. *)
Definition videos (outs : list Output) : list (string * frames) :=
  flat_map (fun o => match o with
                     | WriteVideo name content _ => [(name, content)]
                     | PrintLine _ => []
                     end) outs.

End Loop.

End Render.

(* ===================================================================== *)
(** * The videos *)
(* ===================================================================== *)

Module RenderProps.
Import Py Config World TrainJaxPpo PyFacts RolloutFacts RolloutProps Render.
Local Open Scope py_scope.

Lemma nth_error_every {A : Type} (k : nat) (l : list A) :
  forall skip j, nth_error (every k skip l) j = nth_error l (skip + j * S k).
Proof.
  induction l as [|x r IH]; intros skip j; cbn [every].
  - now rewrite !nth_error_nil.
  - destruct skip as [|s].
    + destruct j as [|j]; [reflexivity|].
      cbn [nth_error Nat.add Nat.mul]. apply IH.
    + cbn [Nat.add nth_error]. apply IH.
Qed.

Lemma length_every_other {A : Type} (l : list A) :
  List.length (every 1 0 l) = Nat.div2 (S (List.length l))
  /\ List.length (every 1 1 l) = Nat.div2 (List.length l).
Proof.
  induction l as [|x r [IH0 IH1]]; [split; reflexivity|].
  split.
  - cbn [every List.length]. now rewrite IH1.
  - cbn [every List.length]. exact IH0.
Qed.

Lemma str_inj (i j : nat) : str i = str j -> i = j.
Proof.
  unfold str. intros E.
  apply (f_equal NilEmpty.uint_of_string) in E.
  rewrite !NilEmpty.usu in E. injection E as E.
  now apply Unsigned.to_uint_inj.
Qed.

Lemma length_append (a s : string) :
  String.length (a ++ s) = String.length a + String.length s.
Proof. induction a as [|c a IH]; simpl; [reflexivity | now rewrite IH]. Qed.

Lemma append_inj_r (s a b : string) : (a ++ s = b ++ s)%string -> a = b.
Proof.
  revert b. induction a as [|c a IH]; intros [|d b] E; simpl in E.
  - reflexivity.
  - apply (f_equal String.length) in E. simpl in E.
    rewrite length_append in E. lia.
  - apply (f_equal String.length) in E. simpl in E.
    rewrite length_append in E. lia.
  - injection E as -> E. f_equal. now apply IH.
Qed.

Example video_names :
  map video_name [0; 9; 10; 123]
  = ["rollout0.mp4"; "rollout9.mp4"; "rollout10.mp4"; "rollout123.mp4"]%string.
Proof. reflexivity. Qed.

Lemma video_name_inj (i j : nat) : video_name i = video_name j -> i = j.
Proof.
  unfold video_name. intros E. simpl in E.
  injection E as E.
  apply str_inj. eapply append_inj_r. exact E.
Qed.

Section Videos.
Variable snapshot : Type.
Variable frames : Type.
Variable rate : Type.
Variable render : list snapshot -> Z -> Z -> frames.
Variable fps : rate.

Abbreviation loop := (render_loop snapshot frames rate render fps).

Lemma render_loop_videos (items : list (nat * list snapshot)) :
  snd (loop items) = Return tt
  /\ videos frames rate (fst (loop items))
     = map (fun it => (video_name (fst it), render (every 1 0 (snd it)) 480 640)) items.
Proof.
  induction items as [|[i rollout] rest [IHr IHv]]; [split; reflexivity|].
  cbn [render_loop slice_step render_every]. unfold Return.
  destruct (loop rest) as [outs r]. cbn [fst snd] in *.
  split; [exact IHr|].
  cbn [videos app flat_map map fst snd]. f_equal. exact IHv.
Qed.

Lemma enumerate_names {A : Type} (l : list A) :
  map (fun it => video_name (fst it)) (enumerate l)
  = map video_name (seq 0 (List.length l)).
Proof.
  unfold enumerate. rewrite <- (map_map fst video_name). f_equal.
  generalize 0. induction l as [|x r IH]; intros n; [reflexivity|].
  cbn [List.length seq combine map fst]. now rewrite IH.
Qed.

(** X20. The render loop never fails and writes one video per trajectory,
    in order, the [i]-th to [rollout<i>.mp4] from the snapshots at the even
    positions of trajectory [i]; the file names are pairwise different, so
    no video of a run overwrites another. *)
Theorem one_video_per_trajectory (trajectories : list (list snapshot)) :
  let result := render_rollouts snapshot frames rate render fps trajectories in
  snd result = Return tt
  /\ videos frames rate (fst result)
     = map (fun it => (video_name (fst it), render (every 1 0 (snd it)) 480 640))
           (enumerate trajectories)
  /\ map fst (videos frames rate (fst result))
     = map video_name (seq 0 (List.length trajectories))
  /\ NoDup (map fst (videos frames rate (fst result))).
Proof.
  cbv zeta. unfold render_rollouts.
  destruct (render_loop_videos (enumerate trajectories)) as [Hr Hv].
  assert (Hn : map fst (videos frames rate (fst (loop (enumerate trajectories))))
               = map video_name (seq 0 (List.length trajectories))).
  { rewrite Hv, map_map. cbn [fst]. apply enumerate_names. }
  split; [exact Hr|]. split; [exact Hv|]. split; [exact Hn|].
  rewrite Hn. apply NoDup_map_NoDup_ForallPairs; [|apply seq_NoDup].
  intros i j _ _. apply video_name_inj.
Qed.

End Videos.

Section Frames.
Variable array : Type.
Variable key : Type.
Variable action : Type.
Variable subkey : key -> nat -> nat -> key.
Variable env_step : State array -> action -> State array.
Variable jit_inference_fn : option array -> key -> action.

(** X21. What a video of a rollout shows: the slice [rollout[::2]] of a
    rollout of [episode_length] steps has [ceil(episode_length / 2)]
    snapshots, and its [j]-th one is the state after [2 j + 1] steps of the
    environment.  The states after an even number of steps, the reset state
    among them, are in no video. *)
Theorem video_shows_odd_steps
  (episode_length : nat) (rng : key) (state : State array) :
  exists traj,
    slice_step (do_rollout array key action subkey env_step jit_inference_fn
                  episode_length rng state) render_every
    = Return traj
    /\ List.length traj = Nat.div2 (S episode_length)
    /\ forall j,
         nth_error traj j
         = if Nat.ltb (2 * j) episode_length
           then Some (tree_replace array (empty_traj array state)
                        (data array
                           (fst (carry_after array key action subkey env_step
                                   jit_inference_fn (2 * j + 1) (state, rng)))))
           else None.
Proof.
  eexists. split; [reflexivity|]. split.
  - rewrite (proj1 (length_every_other _)). unfold do_rollout.
    now rewrite scan_length.
  - intros j. rewrite nth_error_every. cbn [Nat.add].
    replace (j * 2) with (2 * j) by lia.
    unfold do_rollout. destruct (Nat.ltb_spec (2 * j) episode_length) as [Hj|Hj].
    + rewrite (scan_nth array key action subkey env_step jit_inference_fn) by exact Hj.
      now replace (2 * j + 1) with (S (2 * j)) by lia.
    + apply nth_error_None. now rewrite scan_length.
Qed.

End Frames.
End RenderProps.
